(** * NDVI from a multi-band GeoTIFF: a model of [NvidiaCalculator.py]

    The development follows [calculate_ndvi] line by line.  Pixel values are
    IEEE 754 binary32 numbers, taken from the Standard Library's executable
    specification of floating-point arithmetic ([SpecFloat], instantiated at
    precision 24 and maximal exponent 128); arrays are lists of rows; the
    metadata dictionary is a finite map from keys to values; calls into
    [rasterio] are answered by an environment and recorded in a trace. *)

From Stdlib Require Import ZArith Bool List Lia.
From Stdlib Require Import Floats.SpecFloat.
From stdpp Require Import gmap strings list pretty.

Local Open Scope Z_scope.

(** ** binary32 arithmetic, as numpy's [float32] *)

Module F32.

Definition prec : Z := 24.
Definition emax : Z := 128.

Definition add : spec_float -> spec_float -> spec_float := SFadd prec emax.
Definition sub : spec_float -> spec_float -> spec_float := SFsub prec emax.
Definition div : spec_float -> spec_float -> spec_float := SFdiv prec emax.
Definition opp : spec_float -> spec_float := SFopp.

(** [x == y], [x < y], [x <= y] on floats: false as soon as a NaN is
    involved, and the two zeros are equal. *)
Definition eqb : spec_float -> spec_float -> bool := SFeqb.
Definition ltb : spec_float -> spec_float -> bool := SFltb.
Definition leb : spec_float -> spec_float -> bool := SFleb.

(** Rounding of the number [m * 2^e] to the nearest binary32 value, ties to
    even; overflow gives an infinity. *)
Definition round (m e : Z) : spec_float := binary_normalize prec emax m e false.

(** An integer as a binary32 value: what [astype(np.float32)] does to an
    integer sample, and what numpy does to the Python integers [0], [-1]
    and [1] that the code stores into or compares with a float32 array. *)
Definition of_Z (z : Z) : spec_float := round z 0.

Definition valid : spec_float -> bool := valid_binary prec emax.

(** [np.isnan] and [np.isinf] on one element. *)
Definition isnan (x : spec_float) : bool :=
  match x with S754_nan => true | _ => false end.
Definition isinf (x : spec_float) : bool :=
  match x with S754_infinity _ => true | _ => false end.
Definition is_finite (x : spec_float) : bool :=
  match x with S754_zero _ | S754_finite _ _ _ => true | _ => false end.
Definition is_zero (x : spec_float) : bool :=
  match x with S754_zero _ => true | _ => false end.

End F32.

(** ** The per-element steps of lines 36 to 44 *)

(** Line 36, [(nir - red) / (nir + red)], at one pixel. *)
Definition ratio (red nir : spec_float) : spec_float :=
  F32.div (F32.sub nir red) (F32.add nir red).

(** Lines 40 and 42: [a[mask(a)] = 0] at one element. *)
Definition zero_where (mask : spec_float -> bool) (x : spec_float) : spec_float :=
  if mask x then F32.of_Z 0 else x.

(** numpy's clip kernel for floating types: the maximum and the minimum keep
    a NaN first argument and otherwise compare with [>] and [<]. *)
Definition npy_max (a b : spec_float) : spec_float :=
  if F32.isnan a then a else if F32.ltb b a then a else b.
Definition npy_min (a b : spec_float) : spec_float :=
  if F32.isnan a then a else if F32.ltb a b then a else b.

(** Line 44, [np.clip(x, lo, hi)], at one element. *)
Definition clip (lo hi : spec_float) (x : spec_float) : spec_float :=
  npy_min (npy_max x lo) hi.

(** Lines 36 to 44 at one pixel. *)
Definition ndvi_pixel (red nir : spec_float) : spec_float :=
  clip (F32.of_Z (-1)) (F32.of_Z 1)
    (zero_where F32.isinf (zero_where F32.isnan (ratio red nir))).

(** ** Python exceptions *)

(** The handlers of lines 66 to 70 tell [FileNotFoundError] (and its
    subclasses) from every other [Exception]; [str e] is the text that
    [f"{e}"] prints. *)
Inductive exn :=
| FileNotFoundError (msg : string)
| ValueError (msg : string)
| OtherException (cls msg : string).

Definition str (e : exn) : string :=
  match e with
  | FileNotFoundError msg | ValueError msg | OtherException _ msg => msg
  end.

(** ** Two-dimensional numpy arrays, as lists of rows *)

Definition shape {A} (a : list (list A)) : nat * nat :=
  (length a, match a with [] => 0%nat | row :: _ => length row end).

(** A numpy array has rows of one length. *)
Definition rectangular {A} (a : list (list A)) : Prop :=
  Forall (fun row => length row = (shape a).2) a.

(** [a[r, c]], when the position exists. *)
Definition pixel {A} (a : list (list A)) (r c : nat) : option A :=
  a !! r ≫= fun row => row !! c.

(** numpy's broadcasting rule for one axis: equal lengths, or one of them
    is 1. *)
Definition broadcast_dim (m n : nat) : option nat :=
  if (m =? n)%nat then Some m
  else if (m =? 1)%nat then Some n
  else if (n =? 1)%nat then Some m
  else None.

(** An axis of length 1 is repeated up to the broadcast length. *)
Definition stretch {A} (n : nat) (l : list A) : list A :=
  match l with
  | [x] => replicate n x
  | _ => l
  end.

Definition broadcast_to {A} (s : nat * nat) (a : list (list A)) : list (list A) :=
  stretch s.1 (map (stretch s.2) a).

Definition show_shape (s : nat * nat) : string :=
  "(" +:+ pretty s.1 +:+ "," +:+ pretty s.2 +:+ ")".

Definition broadcast_message (s1 s2 : nat * nat) : string :=
  "operands could not be broadcast together with shapes "
    +:+ show_shape s1 +:+ " " +:+ show_shape s2 +:+ " ".

(** A binary operator of numpy on two arrays: the shapes are broadcast
    against each other, and shapes that cannot be raise [ValueError]. *)
Definition elementwise {A B C} (f : A -> B -> C)
    (a : list (list A)) (b : list (list B)) : exn + list (list C) :=
  match broadcast_dim (shape a).1 (shape b).1,
        broadcast_dim (shape a).2 (shape b).2 with
  | Some h, Some w =>
      inr (zip_with (zip_with f) (broadcast_to (h, w) a) (broadcast_to (h, w) b))
  | _, _ => inl (ValueError (broadcast_message (shape a) (shape b)))
  end.

Definition np_sub := elementwise F32.sub.
Definition np_add := elementwise F32.add.
Definition np_div := elementwise F32.div.

(** [a[mask(a)] = 0] on a whole array and [np.clip(a, lo, hi)] with Python
    integers as bounds. *)
Definition set_zero_where (mask : spec_float -> bool)
    (a : list (list spec_float)) : list (list spec_float) :=
  map (map (zero_where mask)) a.

Definition np_clip (a : list (list spec_float)) (lo hi : Z) : list (list spec_float) :=
  map (map (clip (F32.of_Z lo) (F32.of_Z hi))) a.

(** The array a band is read into has the data type of the file. *)
Inductive ndarray :=
| IntArray (a : list (list Z))              (* uint8, int16, uint16, int32, ... *)
| Float32Array (a : list (list spec_float))
| Float64Array (a : list (list spec_float)).

(** A binary64 value rounded to binary32. *)
Definition float64_to_float32 (x : spec_float) : spec_float :=
  match x with
  | S754_finite s m e => binary_normalize F32.prec F32.emax (cond_Zopp s (Z.pos m)) e s
  | _ => x
  end.

(** Lines 30 and 31: [.astype(np.float32)]. *)
Definition astype_float32 (a : ndarray) : list (list spec_float) :=
  match a with
  | IntArray a => map (map F32.of_Z) a
  | Float32Array a => a
  | Float64Array a => map (map float64_to_float32) a
  end.

(** Lines 35 to 44 on two float32 arrays: the three operators of line 36 in
    the order Python evaluates them, then the two masked stores and the
    clip. *)
Definition compute_index (red nir : list (list spec_float))
    : exn + list (list spec_float) :=
  match np_sub nir red with
  | inl e => inl e
  | inr num =>
      match np_add nir red with
      | inl e => inl e
      | inr den =>
          match np_div num den with
          | inl e => inl e
          | inr ndvi =>
              let ndvi := set_zero_where F32.isnan ndvi in
              let ndvi := set_zero_where F32.isinf ndvi in
              inr (np_clip ndvi (-1) 1)
          end
      end
  end.

(** ** numpy's floating-point error state *)

(** [compute_index] is the computation under numpy's state at start-up, in
    which no floating-point error stops an operator.  That state belongs to
    the process: a caller can change it with [np.seterr] before it calls
    [calculate_ndvi], and line 35 overrides only two of its four entries.
    The definitions below make the state an argument. *)

(** The four kinds of floating-point error that numpy tells apart
    ([divide], [over], [under] and [invalid]) and the three operators of
    line 36. *)
Inductive fp_error := FpDivide | FpOver | FpUnder | FpInvalid.
Inductive ufunc := Subtract | Add | Divide.

Definition same_error (a b : fp_error) : bool :=
  match a, b with
  | FpDivide, FpDivide | FpOver, FpOver | FpUnder, FpUnder | FpInvalid, FpInvalid => true
  | _, _ => false
  end.

(** The part of the process state that line 36 depends on.  [fp_handle]
    is what numpy does once an operator has signalled an error of a kind:
    [None], it goes on (the modes [ignore], [warn], [print] and [log], as
    long as the warning is not turned into an exception), or [Some e], it
    raises [e] (the mode [raise]).  [fp_tiny] tells whether the machine
    signals an underflow at a pair of operands, which IEEE 754 leaves in
    part to the implementation. *)
Record fp_state := {
  fp_handle : fp_error -> ufunc -> option exn;
  fp_tiny : ufunc -> spec_float -> spec_float -> bool
}.

(** [with np.errstate(divide='ignore', invalid='ignore')], for any list of
    kinds: inside the block the named kinds are ignored, the others are
    handled as the caller left them. *)
Definition errstate (ignored : list fp_error) (st : fp_state) : fp_state :=
  {| fp_handle := fun err u =>
       if existsb (same_error err) ignored then None else fp_handle st err u;
     fp_tiny := fp_tiny st |}.

Definition apply_ufunc (u : ufunc) : spec_float -> spec_float -> spec_float :=
  match u with
  | Subtract => F32.sub
  | Add => F32.add
  | Divide => F32.div
  end.

(** The errors an operator signals at one pair of elements: a division of
    a finite number other than zero by zero; an infinite result of finite
    operands that is not such a division; a NaN result of operands that
    are not NaN. *)
Definition signals (st : fp_state) (err : fp_error) (u : ufunc)
    (x y : spec_float) : bool :=
  match err with
  | FpDivide =>
      match u with
      | Divide => F32.is_finite x && negb (F32.is_zero x) && F32.is_zero y
      | _ => false
      end
  | FpOver =>
      F32.is_finite x && F32.is_finite y && F32.isinf (apply_ufunc u x y)
        && negb (F32.is_zero y)
  | FpUnder => fp_tiny st u x y
  | FpInvalid =>
      F32.isnan (apply_ufunc u x y) && negb (F32.isnan x) && negb (F32.isnan y)
  end.

(** Whether an error of a kind was signalled anywhere in the loop of an
    operator over two arrays. *)
Definition signalled (st : fp_state) (err : fp_error) (u : ufunc)
    (a b : list (list spec_float)) : bool :=
  match elementwise (signals st err u) a b with
  | inr flags => existsb (existsb id) flags
  | inl _ => false
  end.

(** After the loop numpy goes through the kinds in the order divide, over,
    under, invalid; the first handler that raises ends the call. *)
Definition raised (st : fp_state) (u : ufunc)
    (a b : list (list spec_float)) : option exn :=
  foldr (fun err rest =>
           match (if signalled st err u a b then fp_handle st err u else None) with
           | Some e => Some e
           | None => rest
           end)
        None [FpDivide; FpOver; FpUnder; FpInvalid].

(** One operator of line 36 on two arrays, under a state. *)
Definition ufunc_call (st : fp_state) (u : ufunc)
    (a b : list (list spec_float)) : exn + list (list spec_float) :=
  match elementwise (apply_ufunc u) a b with
  | inl e => inl e
  | inr c =>
      match raised st u a b with
      | Some e => inl e
      | None => inr c
      end
  end.

(** Lines 35 to 44 under the state the caller left: the three operators
    run inside the block of line 35; the masks, the masked stores and the
    clip of lines 40 to 44 signal nothing, their operands being compared
    and copied only. *)
Definition compute_index_in (st : fp_state) (red nir : list (list spec_float))
    : exn + list (list spec_float) :=
  let inside := errstate [FpDivide; FpInvalid] st in
  match ufunc_call inside Subtract nir red with
  | inl e => inl e
  | inr num =>
      match ufunc_call inside Add nir red with
      | inl e => inl e
      | inr den =>
          match ufunc_call inside Divide num den with
          | inl e => inl e
          | inr ndvi =>
              let ndvi := set_zero_where F32.isnan ndvi in
              let ndvi := set_zero_where F32.isinf ndvi in
              inr (np_clip ndvi (-1) 1)
          end
      end
  end.

(** The text of numpy's [FloatingPointError]. *)
Definition fp_message (err : fp_error) (u : ufunc) : string :=
  match err with
  | FpDivide => "divide by zero"
  | FpOver => "overflow"
  | FpUnder => "underflow"
  | FpInvalid => "invalid value"
  end
  +:+ " encountered in "
  +:+ match u with
      | Subtract => "subtract"
      | Add => "add"
      | Divide => "divide"
      end.

(** ** Metadata *)

(** The values of the dictionary [src.meta] (keys [driver], [dtype],
    [nodata], [width], [height], [count], [crs], [transform]). *)
Inductive meta_value :=
| MNone
| MInt (z : Z)
| MFloat (x : spec_float)
| MStr (s : string)
| MCrs (wkt : string)
| MAffine (a b c d e f : spec_float).

(** Lines 49 to 58: the copy of [src.meta], updated with four entries in
    the order of the dictionary literal. *)
Definition derive_out_meta (meta : gmap string meta_value) : gmap string meta_value :=
  <["nodata" := MInt (-9999)]>
    (<["dtype" := MStr "float32"]>
       (<["count" := MInt 1]>
          (<["driver" := MStr "GTiff"]> meta))).

(** ** The raster library, as [calculate_ndvi] uses it *)

(** An open dataset: [src.count], [src.meta] and [src.read(i)]. *)
Record dataset := {
  ds_count : Z;
  ds_meta : gmap string meta_value;
  ds_read : Z -> exn + ndarray
}.

(** The answers of the library: [rasterio.open(path)], and for the
    destination [rasterio.open(path, "w", **meta)] and [dest.write(a, i)],
    where [None] is a normal return. *)
Record rasterio := {
  rio_open : string -> exn + dataset;
  rio_create : string -> gmap string meta_value -> option exn;
  rio_write : string -> list (list spec_float) -> Z -> option exn
}.

(** What the function does to the outside, in the order it does it. *)
Inductive event :=
| EvOpen (path : string)
| EvRead (path : string) (band : Z)
| EvCreate (path : string) (meta : gmap string meta_value)
| EvWrite (path : string) (a : list (list spec_float)) (band : Z)
| EvClose (path : string)
| EvPrint (line : string).

(** ** Computations that may raise and that leave a trace *)

Definition M (A : Type) : Type := list event -> (exn + A) * list event.

Definition ret {A} (x : A) : M A := fun tr => (inr x, tr).
Definition raise {A} (e : exn) : M A := fun tr => (inl e, tr).
Definition bind {A B} (m : M A) (k : A -> M B) : M B :=
  fun tr =>
    match m tr with
    | (inl e, tr') => (inl e, tr')
    | (inr x, tr') => k x tr'
    end.
Definition emit (ev : event) : M unit := fun tr => (inr tt, tr ++ [ev]).
Definition lift {A} (r : exn + A) : M A := fun tr => (r, tr).
Definition lift_status (r : option exn) : M unit :=
  fun tr => (match r with Some e => inl e | None => inr tt end, tr).

(** [try: m except FileNotFoundError: h1 except Exception as e: h2 e]. *)
Definition try_except {A} (m : M A) (h1 : M A) (h2 : exn -> M A) : M A :=
  fun tr =>
    match m tr with
    | (inr x, tr') => (inr x, tr')
    | (inl (FileNotFoundError msg), tr') => h1 tr'
    | (inl e, tr') => h2 e tr'
    end.

(** [with ... as f: body]: the file is closed on every way out of the
    body, and what the body raised is raised again. *)
Definition closing {A} (path : string) (body : M A) : M A :=
  fun tr => let '(r, tr') := body tr in (r, tr' ++ [EvClose path]).

#[export] Instance M_ret : MRet M := @ret.
#[export] Instance M_bind : MBind M := fun A B k m => bind m k.

Definition print (line : string) : M unit := emit (EvPrint line).

Section Pipeline.

Variable lib : rasterio.

Definition open_dataset (path : string) : M dataset :=
  (emit (EvOpen path) ;; lift (rio_open lib path)).

Definition read_band (path : string) (src : dataset) (i : Z) : M ndarray :=
  (emit (EvRead path i) ;; lift (ds_read src i)).

Definition create_dataset (path : string) (meta : gmap string meta_value) : M unit :=
  (emit (EvCreate path meta) ;; lift_status (rio_create lib path meta)).

Definition write_band (path : string) (a : list (list spec_float)) (i : Z) : M unit :=
  (emit (EvWrite path a i) ;; lift_status (rio_write lib path a i)).

(** Line 22. *)
Definition bands_exist (count red_band_num nir_band_num : Z) : bool :=
  (0 <? red_band_num) && (red_band_num <=? count)
  && ((0 <? nir_band_num) && (nir_band_num <=? count)).

(** Lines 24 and 25. *)
Definition invalid_band_message (count red_band_num nir_band_num : Z) : string :=
  "Invalid band numbers. File has " +:+ pretty count +:+ " bands, "
    +:+ "but Red band " +:+ pretty red_band_num
    +:+ " and NIR band " +:+ pretty nir_band_num +:+ " were requested.".

(** Lines 46 to 62: the output metadata, the destination and the write. *)
Definition write_output (output_path : string) (src : dataset)
    (ndvi : list (list spec_float)) : M unit :=
  let out_meta := derive_out_meta (ds_meta src) in
  create_dataset output_path out_meta;;
  closing output_path (write_band output_path ndvi 1).

(** Lines 20 to 62, the body of the outer [with]. *)
Definition process (input_path output_path : string) (src : dataset)
    (red_band_num nir_band_num : Z) : M unit :=
  if negb (bands_exist (ds_count src) red_band_num nir_band_num)
  then raise (ValueError
                (invalid_band_message (ds_count src) red_band_num nir_band_num))
  else
    red ← read_band input_path src red_band_num;
    nir ← read_band input_path src nir_band_num;
    ndvi ← lift (compute_index (astype_float32 red) (astype_float32 nir));
    write_output output_path src ndvi.

(** Lines 19 to 64, the body of the [try]. *)
Definition pipeline (input_path output_path : string)
    (red_band_num nir_band_num : Z) : M unit :=
  (src ← open_dataset input_path;
   closing input_path
     (process input_path output_path src red_band_num nir_band_num);;
   print ("NDVI calculation complete. Output saved to: " +:+ output_path)).

(** Lines 17 to 70. *)
Definition calculate_ndvi (input_path output_path : string)
    (red_band_num nir_band_num : Z) : M unit :=
  try_except
    (pipeline input_path output_path red_band_num nir_band_num)
    (print ("Error: Input file not found at '" +:+ input_path +:+ "'");;
     print "Please run 'create_mock_geotiff.py' first to generate the sample file.")
    (fun e => print ("An error occurred: " +:+ str e)).

End Pipeline.

(** ** The generator of sample files ([MockGeotiffGenerator.py]) *)

Module Mock.

(** [rasterio.open(filepath, 'w', **meta)] and [dst.write(mock_data)], as
    answered by the library; [None] is a normal return. *)
Record writer := {
  w_create : string -> gmap string meta_value -> option exn;
  w_write : string -> list (list (list Z)) -> option exn
}.

Inductive event :=
| EvCreate (path : string) (meta : gmap string meta_value)
| EvWrite (path : string) (data : list (list (list Z)))
| EvClose (path : string)
| EvPrint (line : string).

(** Line 22: an array of shape [(bands, height, width)] filled from the
    random source, which is taken as an argument. *)
Definition randint (draw : nat -> nat -> nat -> Z) (bands height width : nat)
    : list (list (list Z)) :=
  (fun b => (fun r => (fun c => draw b r c) <$> seq 0 width) <$> seq 0 height)
    <$> seq 0 bands.

(** Lines 27 to 30: the mask of the circle around the centre, in integer
    arithmetic; [row] and [col] are the values of [np.ogrid]. *)
Definition in_circle (height width : nat) (row col : nat) : bool :=
  let center_x := Z.of_nat width / 2 in
  let center_y := Z.of_nat height / 2 in
  let radius := Z.min (Z.of_nat width) (Z.of_nat height) / 3 in
  (Z.of_nat col - center_x) ^ 2 + (Z.of_nat row - center_y) ^ 2 <=? radius ^ 2.

(** Arithmetic on [uint16] samples wraps around. *)
Definition uint16 (z : Z) : Z := z mod 65536.

(** [a[mask] = f(a[mask])] on one band. *)
Definition update_masked (f : Z -> Z) (mask : nat -> nat -> bool)
    (band : list (list Z)) : list (list Z) :=
  imap (fun r row => imap (fun c v => if mask r c then f v else v) row) band.

(** [data[k, mask] = f(data[k, mask])]; numpy raises [IndexError] when the
    array has no band [k]. *)
Definition set_band_masked (k : nat) (f : Z -> Z) (mask : nat -> nat -> bool)
    (data : list (list (list Z))) : exn + list (list (list Z)) :=
  match data !! k with
  | Some band => inr (<[k := update_masked f mask band]> data)
  | None =>
      inl (OtherException "IndexError"
             ("index " +:+ pretty k +:+ " is out of bounds for axis 0 with size "
                +:+ pretty (length data)))
  end.

(** Lines 22 to 35: the array that will be written. *)
Definition mock_data (draw : nat -> nat -> nat -> Z) (bands height width : nat)
    : exn + list (list (list Z)) :=
  let data := randint draw bands height width in
  let mask := in_circle height width in
  match set_band_masked 1 (fun v => uint16 (v + 2500)) mask data with
  | inl e => inl e
  | inr data => set_band_masked 0 (fun v => uint16 (v / 2)) mask data
  end.

(** The binary64 numbers [0.01], [140.0] and [-35.0] of line 18. *)
Definition hundredth : spec_float := S754_finite false 5764607523034235 (-59).
Definition west : spec_float := S754_finite false 4925812092436480 (-45).
Definition north : spec_float := S754_finite true 4925812092436480 (-47).

(** Lines 18, 19 and 39 to 48: [from_origin(west, north, xsize, ysize)] is
    the affine map [(xsize, 0, west, 0, -ysize, north)]. *)
Definition meta (bands height width : nat) : gmap string meta_value :=
  list_to_map
    [("driver", MStr "GTiff"); ("dtype", MStr "uint16"); ("nodata", MNone);
     ("width", MInt (Z.of_nat width)); ("height", MInt (Z.of_nat height));
     ("count", MInt (Z.of_nat bands)); ("crs", MCrs "EPSG:4326");
     ("transform", MAffine hundredth (S754_zero false) west
                           (S754_zero false) (SFopp hundredth) north)].

Definition success_lines (filepath : string) (bands : nat) : list event :=
  [EvPrint ("Successfully created mock GeoTIFF: " +:+ filepath);
   EvPrint ("This file has " +:+ pretty bands
              +:+ " bands. For this specific file, use Red=Band 1 and NIR=Band 2 for your NDVI calculation.")].

Definition error_line (e : exn) : event :=
  EvPrint ("Error creating mock GeoTIFF: " +:+ str e).

(** [create_mock_geotiff(filepath, bands, height, width)] from line 27 on,
    for sizes that are natural numbers and an array that line 22 has
    returned: the result, an exception or a normal return, and the events.
    The array is built outside the [try]; the [try] covers the creation and
    the write.  The exceptions of line 22 itself are those of
    [create_mock_geotiff_call] below. *)
Definition create_mock_geotiff (lib : writer) (draw : nat -> nat -> nat -> Z)
    (filepath : string) (bands height width : nat) : (exn + unit) * list event :=
  match mock_data draw bands height width with
  | inl e => (inl e, [])
  | inr data =>
      let meta := meta bands height width in
      match w_create lib filepath meta with
      | Some e => (inr tt, [EvCreate filepath meta; error_line e])
      | None =>
          match w_write lib filepath data with
          | Some e =>
              (inr tt, [EvCreate filepath meta; EvWrite filepath data;
                        EvClose filepath; error_line e])
          | None =>
              (inr tt, [EvCreate filepath meta; EvWrite filepath data;
                        EvClose filepath] ++ success_lines filepath bands)
          end
      end
  end.

(** Line 22 as numpy runs it, on Python integers: a negative size is
    refused with [ValueError], and an array that cannot be allocated with
    [MemoryError].  Whether the arrays of the function fit in memory
    depends on the machine, so that answer is the environment's ([None]:
    they are allocated). *)
Definition np_randint (alloc : Z -> Z -> Z -> option exn)
    (draw : nat -> nat -> nat -> Z) (bands height width : Z)
    : exn + list (list (list Z)) :=
  if (bands <? 0) || (height <? 0) || (width <? 0)
  then inl (ValueError "negative dimensions are not allowed")
  else match alloc bands height width with
       | Some e => inl e
       | None =>
           inr (randint draw (Z.to_nat bands) (Z.to_nat height) (Z.to_nat width))
       end.

(** A call [create_mock_geotiff(filepath, bands, height, width)] with any
    integers: line 22 is outside the [try], what it raises reaches the
    caller; once it has returned the call goes on as above. *)
Definition create_mock_geotiff_call (alloc : Z -> Z -> Z -> option exn)
    (lib : writer) (draw : nat -> nat -> nat -> Z)
    (filepath : string) (bands height width : Z) : (exn + unit) * list event :=
  match np_randint alloc draw bands height width with
  | inl e => (inl e, [])
  | inr _ =>
      create_mock_geotiff lib draw filepath
        (Z.to_nat bands) (Z.to_nat height) (Z.to_nat width)
  end.

(** [data[b, r, c]], when the position exists. *)
Definition sample (data : list (list (list Z))) (b r c : nat) : option Z :=
  data !! b ≫= fun band => pixel band r c.

End Mock.

(** ** Shapes *)

(** Two arrays of one shape, as the two bands of one dataset are. *)
Definition same_shape {A B} (a : list (list A)) (b : list (list B)) : Prop :=
  rectangular a ∧ rectangular b ∧ shape a = shape b.

(** Shapes that numpy can broadcast against each other. *)
Definition broadcastable (s1 s2 : nat * nat) : bool :=
  bool_decide (is_Some (broadcast_dim s1.1 s2.1))
  && bool_decide (is_Some (broadcast_dim s1.2 s2.2)).

(** ** Bounds of rounded numbers *)

(** What a rounding can return: a zero, or a finite number whose mantissa
    has at most 24 bits and whose exponent lies between [lo] and [hi]; an
    infinity needs [hi] to exceed the largest exponent, 104. *)
Definition rounded (lo hi : Z) (x : spec_float) : Prop :=
  match x with
  | S754_zero _ => True
  | S754_finite _ m e => Z.pos m < 2 ^ 24 ∧ lo <= e <= hi
  | S754_infinity _ => 104 < hi
  | S754_nan => False
  end.

(** A normal number of sign [s]: a mantissa of exactly 24 bits and an
    exponent between [lo] and [hi]. *)
Definition normal (lo hi : Z) (s : bool) (x : spec_float) : Prop :=
  match x with
  | S754_finite s' m e => s' = s ∧ 2 ^ 23 <= Z.pos m < 2 ^ 24 ∧ lo <= e <= hi
  | _ => False
  end.

(** ** Sample inputs *)

(** Two finite binary32 samples of opposite signs, [1.5 * 2^127] and
    [- 2^127], and the one-pixel bands that hold them. *)
Definition big_nir : spec_float := S754_finite false 12582912 104.
Definition big_red : spec_float := S754_finite true 8388608 104.

(** A 1 x 2 pair of bands read from a [uint16] file. *)
Definition sample_red : list (list spec_float) := astype_float32 (IntArray [[1000; 0]]).
Definition sample_nir : list (list spec_float) := astype_float32 (IntArray [[3000; 0]]).

Module F64.
Definition of_Z (z : Z) : spec_float := binary_normalize 53 1024 z 0 false.
End F64.

(** The metadata of a five-band [uint16] GeoTIFF of height 1 and width 2. *)
Definition sample_meta : gmap string meta_value :=
  list_to_map
    [("driver", MStr "GTiff"); ("dtype", MStr "uint16"); ("nodata", MNone);
     ("width", MInt 2); ("height", MInt 1); ("count", MInt 5);
     ("crs", MCrs "EPSG:4326");
     ("transform", MAffine (F64.of_Z 1) (F64.of_Z 0) (F64.of_Z 140)
                           (F64.of_Z 0) (F64.of_Z (-1)) (F64.of_Z (-35)))].

(** Band [i] of the sample holds [1000 * i] and [0]. *)
Definition sample_dataset : dataset :=
  {| ds_count := 5;
     ds_meta := sample_meta;
     ds_read := fun i => inr (IntArray [[1000 * i; 0]]) |}.

(** A library that finds one file, [sample_multiband.tif], and can write
    everywhere.  For a path that does not exist rasterio raises its own
    [RasterioIOError], which is not a [FileNotFoundError]. *)
Definition sample_lib : rasterio :=
  {| rio_open := fun path =>
       if decide (path = "sample_multiband.tif") then inr sample_dataset
       else inl (OtherException "RasterioIOError"
                   (path +:+ ": No such file or directory"));
     rio_create := fun _ _ => None;
     rio_write := fun _ _ _ => None |}.

(** A dataset whose reads disagree in shape: band 1 comes back 1 x 1, the
    other bands 2 x 2. *)
Definition stretched_dataset : dataset :=
  {| ds_count := 2;
     ds_meta := <["height" := MInt 2]> (<["count" := MInt 2]> sample_meta);
     ds_read := fun i =>
       if decide (i = 1) then inr (IntArray [[1000]])
       else inr (IntArray [[3000; 3000]; [3000; 3000]]) |}.

(** A dataset whose band 1 comes back 2 x 2 and the other bands 1 x 3. *)
Definition mismatched_dataset : dataset :=
  {| ds_count := 2;
     ds_meta := <["height" := MInt 2]> (<["count" := MInt 2]> sample_meta);
     ds_read := fun i =>
       if decide (i = 1) then inr (IntArray [[1; 2]; [3; 4]])
       else inr (IntArray [[5; 6; 7]]) |}.

Definition lib_with (src : dataset) : rasterio :=
  {| rio_open := fun _ => inr src;
     rio_create := fun _ _ => None;
     rio_write := fun _ _ _ => None |}.

(** The metadata of a JPEG 2000 source. *)
Definition jp2_meta : gmap string meta_value :=
  <["driver" := MStr "JP2OpenJPEG"]> sample_meta.

(** numpy's state at start-up ([divide], [over] and [invalid] warn,
    [under] is ignored): no error stops an operator.  The state after
    [np.seterr(all='raise')]: every signalled error raises
    [FloatingPointError].  The state after [np.seterr(divide='raise',
    invalid='raise')].  No operation on the samples of this file has a
    result near the underflow range, and none signals an underflow. *)
Definition default_state : fp_state :=
  {| fp_handle := fun _ _ => None; fp_tiny := fun _ _ _ => false |}.

Definition raising_state : fp_state :=
  {| fp_handle := fun err u =>
       Some (OtherException "FloatingPointError" (fp_message err u));
     fp_tiny := fun _ _ _ => false |}.

Definition divide_raising_state : fp_state :=
  {| fp_handle := fun err u =>
       match err with
       | FpDivide | FpInvalid =>
           Some (OtherException "FloatingPointError" (fp_message err u))
       | _ => None
       end;
     fp_tiny := fun _ _ _ => false |}.

(** ** What the handlers print *)

(** Lines 66 to 70, seen from the exception: the two lines of the first
    handler for a [FileNotFoundError], the line of the second handler for
    every other exception. *)
Definition handler_lines (input_path : string) (e : exn) : list event :=
  match e with
  | FileNotFoundError _ =>
      [EvPrint ("Error: Input file not found at '" +:+ input_path +:+ "'");
       EvPrint "Please run 'create_mock_geotiff.py' first to generate the sample file."]
  | _ => [EvPrint ("An error occurred: " +:+ str e)]
  end.

(** The line printed after a run without exception (line 64). *)
Definition success_line (output_path : string) : event :=
  EvPrint ("NDVI calculation complete. Output saved to: " +:+ output_path).

Definition is_print (ev : event) : Prop := ∃ line, ev = EvPrint line.

(** The events of the run [calculate_ndvi("sample_multiband.tif",
    "ndvi_output.tif", 1, 3)] against the sample library. *)
Definition sample_run : list event :=
  (calculate_ndvi sample_lib "sample_multiband.tif" "ndvi_output.tif" 1 3 []).2.

(** A source of draws within [100, 4000), a library that writes without
    error, and a machine on which the arrays of a million pixels or fewer
    fit in memory. *)
Definition sample_draw (b r c : nat) : Z := 100 + Z.of_nat (1000 * b + 10 * r + c).

Definition sample_writer : Mock.writer :=
  {| Mock.w_create := fun _ _ => None; Mock.w_write := fun _ _ => None |}.

Definition sample_alloc (bands height width : Z) : option exn :=
  if bands * height * width <=? 1000000 then None
  else Some (OtherException "MemoryError" "Unable to allocate the array").

(** A dataset that reads back, as bands 1 and 2, the first two bands of an
    array of integers. *)
Definition dataset_of (meta : gmap string meta_value)
    (data : list (list (list Z))) : dataset :=
  {| ds_count := Z.of_nat (length data);
     ds_meta := meta;
     ds_read := fun i =>
       match data !! Z.to_nat (i - 1) with
       | Some band => inr (IntArray band)
       | None => inl (OtherException "IndexError" "band index out of range")
       end |}.

(** The array the generator makes from the sample draws for three bands
    of 4 by 4 pixels, and its first two bands. *)
Definition sample_mock_data : list (list (list Z)) :=
  match Mock.mock_data sample_draw 3 4 4 with
  | inr data => data
  | inl _ => []
  end.

Definition sample_mock_band (k : nat) : list (list Z) :=
  default [] (sample_mock_data !! k).

(** * Properties *)

(** ** binary32 facts used below *)

Lemma of_Z_0 : F32.of_Z 0 = S754_zero false.
Proof. reflexivity. Qed.

Lemma of_Z_1 : F32.of_Z 1 = S754_finite false 8388608 (-23).
Proof. reflexivity. Qed.

Lemma of_Z_m1 : F32.of_Z (-1) = S754_finite true 8388608 (-23).
Proof. reflexivity. Qed.

Lemma of_Z_nodata : F32.of_Z (-9999) = S754_finite true 10238976 (-10).
Proof. reflexivity. Qed.

Lemma eqb_zero_is_zero x : F32.eqb x (F32.of_Z 0) = F32.is_zero x.
Proof. destruct x as [[]|[]| |[] m e]; reflexivity. Qed.

Lemma div_by_zero_not_finite n d :
  F32.is_zero d = true → F32.is_finite (F32.div n d) = false.
Proof. destruct d; try discriminate. destruct n; reflexivity. Qed.

Lemma clip_zero s : clip (F32.of_Z (-1)) (F32.of_Z 1) (S754_zero s) = S754_zero s.
Proof. destruct s; reflexivity. Qed.

Lemma ndvi_pixel_finite red nir :
  F32.is_finite (ratio red nir) = true →
  ndvi_pixel red nir = clip (F32.of_Z (-1)) (F32.of_Z 1) (ratio red nir).
Proof. unfold ndvi_pixel. destruct (ratio red nir); try discriminate; reflexivity. Qed.

Lemma ndvi_pixel_not_finite red nir :
  F32.is_finite (ratio red nir) = false → ndvi_pixel red nir = S754_zero false.
Proof. unfold ndvi_pixel. destruct (ratio red nir); try discriminate; reflexivity. Qed.

Lemma ltb_leb a b : F32.ltb a b = true → F32.leb a b = true.
Proof.
  unfold F32.ltb, F32.leb, SFltb, SFleb.
  destruct (SFcompare a b) as [[]|]; intros; congruence.
Qed.

(** The clip of a number (not a NaN) lies between the bounds. *)
Lemma clip_in_range x :
  F32.isnan x = false →
  F32.leb (F32.of_Z (-1)) (clip (F32.of_Z (-1)) (F32.of_Z 1) x) = true
  ∧ F32.leb (clip (F32.of_Z (-1)) (F32.of_Z 1) x) (F32.of_Z 1) = true.
Proof.
  intros Hnan. unfold clip, npy_max, npy_min. rewrite Hnan.
  destruct (F32.ltb (F32.of_Z (-1)) x) eqn:Hlo.
  - rewrite Hnan. destruct (F32.ltb x (F32.of_Z 1)) eqn:Hhi.
    + split; apply ltb_leb; assumption.
    + split; reflexivity.
  - split; reflexivity.
Qed.

(** A value between the bounds is not the no-data value. *)
Lemma in_range_not_nodata v :
  F32.leb (F32.of_Z (-1)) v = true → F32.eqb v (F32.of_Z (-9999)) = false.
Proof.
  rewrite of_Z_m1, of_Z_nodata.
  destruct v as [s|s| |s m e]; try reflexivity.
  - destruct s; [discriminate | reflexivity].
  - destruct s; [| reflexivity].
    unfold F32.leb, F32.eqb, SFleb, SFeqb, SFcompare.
    destruct (Z.compare_spec e (-10)) as [->| |]; try reflexivity.
    discriminate.
Qed.

(** *** Symmetries of the binary32 operations *)

Lemma binary_round_aux_negb s m e l :
  binary_round_aux F32.prec F32.emax (negb s) m e l
  = SFopp (binary_round_aux F32.prec F32.emax s m e l).
Proof.
  unfold binary_round_aux.
  destruct (shr_fexp F32.prec F32.emax m e l) as [mrs' e'].
  destruct (shr_fexp F32.prec F32.emax _ e' loc_Exact) as [mrs'' e''].
  destruct (shr_m mrs''); [reflexivity | | reflexivity].
  destruct (e'' <=? F32.emax - F32.prec); reflexivity.
Qed.

Lemma binary_normalize_opp z e :
  z ≠ 0 →
  binary_normalize F32.prec F32.emax (- z) e false
  = SFopp (binary_normalize F32.prec F32.emax z e false).
Proof.
  intros Hz. destruct z as [|p|p]; [congruence | |];
    change (- Z.pos p) with (Z.neg p); change (- Z.neg p) with (Z.pos p);
    unfold binary_normalize, binary_round;
    destruct (shl_align p e _) as [mz ez].
  - apply (binary_round_aux_negb false).
  - symmetry. rewrite <- (binary_round_aux_negb true). reflexivity.
Qed.

Lemma add_comm a b : F32.add a b = F32.add b a.
Proof.
  destruct a as [[]|[]| |sa ma ea], b as [[]|[]| |sb mb eb]; try reflexivity.
  unfold F32.add, SFadd. rewrite (Z.min_comm eb ea). f_equal. apply Z.add_comm.
Qed.

(** Swapping the operands of a subtraction changes the sign of the result,
    unless both results are the same NaN or the same +0. *)
Lemma sub_swap a b :
  F32.sub b a = F32.opp (F32.sub a b)
  ∨ (F32.sub b a = F32.sub a b
     ∧ (F32.sub a b = S754_nan ∨ F32.sub a b = S754_zero false)).
Proof.
  destruct a as [[]|[]| |sa ma ea], b as [[]|[]| |sb mb eb];
    try (left; reflexivity); try (right; split; [reflexivity | auto; fail]).
  - left. destruct sb; reflexivity.
  - left. destruct sb; reflexivity.
  - unfold F32.sub, F32.opp, SFsub. rewrite (Z.min_comm eb ea).
    set (x := cond_Zopp sa _). set (y := cond_Zopp sb _).
    destruct (Z.eq_dec (x - y) 0) as [Heq|Hne].
    + right. replace (y - x) with 0 by lia. rewrite Heq. auto.
    + left. replace (y - x) with (- (x - y)) by lia.
      apply binary_normalize_opp. assumption.
Qed.

Lemma div_opp_l a b : F32.div (F32.opp a) b = F32.opp (F32.div a b).
Proof.
  destruct a as [[]|[]| |sa ma ea], b as [[]|[]| |[] mb eb]; try reflexivity;
    try (destruct sa; reflexivity).
  all: unfold F32.div, F32.opp;
    change (SFopp (S754_finite sa ma ea)) with (S754_finite (negb sa) ma ea);
    unfold SFdiv;
    destruct (SFdiv_core_binary _ _ _ _ _ _) as [[mz ez] lz];
    rewrite <- binary_round_aux_negb; f_equal; destruct sa; reflexivity.
Qed.

Lemma compare_opp a b : SFcompare (SFopp a) (SFopp b) = SFcompare b a.
Proof.
  destruct a as [[]|[]| |[] ma ea], b as [[]|[]| |[] mb eb]; try reflexivity;
    unfold SFopp, SFcompare; cbn [negb];
    rewrite (Z.compare_antisym ea eb);
    destruct (ea ?= eb) eqn:He; cbn [CompOpp]; try reflexivity.
  - f_equal. symmetry. apply (Pos.compare_cont_antisym mb ma Eq).
  - f_equal. apply (Pos.compare_cont_antisym ma mb Eq).
Qed.

Lemma ltb_opp a b : F32.ltb (F32.opp a) (F32.opp b) = F32.ltb b a.
Proof. unfold F32.ltb, F32.opp, SFltb. rewrite compare_opp. reflexivity. Qed.

Lemma eqb_opp_self_zero s : F32.eqb (S754_zero s) (F32.opp (S754_zero false)) = true.
Proof. destruct s; reflexivity. Qed.

(** The clip to [-1, 1] commutes with the change of sign. *)
Lemma clip_opp x :
  F32.is_finite x = true →
  clip (F32.of_Z (-1)) (F32.of_Z 1) (F32.opp x)
  = F32.opp (clip (F32.of_Z (-1)) (F32.of_Z 1) x).
Proof.
  intros Hfin.
  assert (Hnan : F32.isnan x = false) by (destruct x; try discriminate; reflexivity).
  assert (Hnan' : F32.isnan (F32.opp x) = false)
    by (destruct x; try discriminate; reflexivity).
  assert (Hlo : F32.of_Z (-1) = F32.opp (F32.of_Z 1)) by reflexivity.
  assert (Hhi : F32.of_Z 1 = F32.opp (F32.of_Z (-1))) by reflexivity.
  assert (HA : F32.ltb (F32.of_Z (-1)) (F32.opp x) = F32.ltb x (F32.of_Z 1)).
  { rewrite Hlo at 1. apply ltb_opp. }
  assert (HB : F32.ltb (F32.opp x) (F32.of_Z 1) = F32.ltb (F32.of_Z (-1)) x).
  { rewrite Hhi at 1. apply ltb_opp. }
  assert (Hone : F32.ltb (F32.of_Z (-1)) x = true ∨ F32.ltb x (F32.of_Z 1) = true).
  { destruct x as [[]|[]| |[] m e]; try discriminate; auto. }
  assert (Hc1 : F32.isnan (F32.of_Z (-1)) = false) by reflexivity.
  assert (Hc2 : F32.isnan (F32.of_Z 1) = false) by reflexivity.
  assert (Hc3 : F32.ltb (F32.of_Z (-1)) (F32.of_Z 1) = true) by reflexivity.
  unfold clip, npy_max, npy_min. rewrite Hnan, Hnan', HA.
  destruct (F32.ltb (F32.of_Z (-1)) x) eqn:A, (F32.ltb x (F32.of_Z 1)) eqn:B;
    cbv iota; rewrite ?Hnan, ?Hnan', ?Hc1, ?Hc2, ?Hc3, ?HB, ?A, ?B; cbv iota;
    try reflexivity.
  destruct Hone; discriminate.
Qed.

Lemma eqb_refl x : F32.isnan x = false → F32.eqb x x = true.
Proof.
  destruct x as [[]|[]| |[] m e]; try discriminate; try reflexivity; intros _;
    unfold F32.eqb, SFeqb, SFcompare; rewrite Z.compare_refl;
    change (PosDef.Pos.compare_cont Eq m m) with (Pos.compare m m);
    rewrite Pos.compare_refl; reflexivity.
Qed.

Lemma clip_not_nan x :
  F32.isnan x = false → F32.isnan (clip (F32.of_Z (-1)) (F32.of_Z 1) x) = false.
Proof.
  intros Hnan. unfold clip, npy_max, npy_min. rewrite Hnan.
  destruct (F32.ltb (F32.of_Z (-1)) x); [rewrite Hnan | ].
  - destruct (F32.ltb x (F32.of_Z 1)); [assumption | reflexivity].
  - reflexivity.
Qed.

Lemma opp_not_nan x : F32.isnan x = false → F32.isnan (F32.opp x) = false.
Proof. destruct x; try discriminate; reflexivity. Qed.

Lemma opp_is_finite x : F32.is_finite (F32.opp x) = F32.is_finite x.
Proof. destruct x; reflexivity. Qed.

Lemma finite_not_nan x : F32.is_finite x = true → F32.isnan x = false.
Proof. destruct x; try discriminate; reflexivity. Qed.

(** Swapping the two bands at a pixel changes the sign of the quotient,
    unless both quotients are the same NaN or the same zero. *)
Lemma ratio_swap a b :
  ratio a b = F32.opp (ratio b a)
  ∨ (ratio a b = ratio b a
     ∧ (ratio b a = S754_nan ∨ F32.is_zero (ratio b a) = true)).
Proof.
  unfold ratio. rewrite (add_comm b a).
  destruct (sub_swap a b) as [-> | [-> Hn]].
  - left. apply div_opp_l.
  - right. split; [reflexivity |].
    destruct Hn as [-> | ->].
    + left. reflexivity.
    + destruct (F32.add a b) as [[]|[]| |[] m e]; auto.
Qed.

Lemma ndvi_pixel_swap a b :
  F32.eqb (ndvi_pixel a b) (F32.opp (ndvi_pixel b a)) = true
  ∧ (ndvi_pixel a b = F32.opp (ndvi_pixel b a)
     ∨ (F32.is_zero (ndvi_pixel a b) = true ∧ F32.is_zero (ndvi_pixel b a) = true)).
Proof.
  destruct (ratio_swap a b) as [Hopp | [Heq Hz]].
  - destruct (F32.is_finite (ratio b a)) eqn:Hfin.
    + assert (Hfin' : F32.is_finite (ratio a b) = true)
        by (rewrite Hopp, opp_is_finite; assumption).
      rewrite (ndvi_pixel_finite a b Hfin'), (ndvi_pixel_finite b a Hfin).
      rewrite Hopp, clip_opp by assumption.
      split; [| left; reflexivity].
      apply eqb_refl, opp_not_nan, clip_not_nan, finite_not_nan, Hfin.
    + assert (Hfin' : F32.is_finite (ratio a b) = false)
        by (rewrite Hopp, opp_is_finite; assumption).
      rewrite (ndvi_pixel_not_finite a b Hfin'), (ndvi_pixel_not_finite b a Hfin).
      split; [reflexivity | right; split; reflexivity].
  - unfold ndvi_pixel. rewrite Heq.
    destruct Hz as [-> | Hz].
    + split; [reflexivity | right; split; reflexivity].
    + destruct (ratio b a) as [s| | |]; try discriminate.
      change (zero_where F32.isinf (zero_where F32.isnan (S754_zero s)))
        with (S754_zero s).
      rewrite clip_zero. split; [destruct s; reflexivity | right; split; reflexivity].
Qed.

(** A band against itself: the quotient is a zero or is not finite. *)
Lemma sub_self x : F32.sub x x = S754_nan ∨ F32.sub x x = S754_zero false.
Proof.
  destruct x as [[]|[]| |s m e]; auto.
  right. unfold F32.sub, SFsub. rewrite Z.sub_diag. reflexivity.
Qed.

Lemma ndvi_pixel_self x : F32.is_zero (ndvi_pixel x x) = true.
Proof.
  unfold ndvi_pixel, ratio.
  destruct (sub_self x) as [-> | ->].
  - reflexivity.
  - destruct (F32.add x x) as [[]|[]| |[] m e]; reflexivity.
Qed.

(** ** Arrays of one shape *)

Lemma map_fixed {T} (f : T → T) (l : list T) :
  Forall (fun x => f x = x) l → map f l = l.
Proof. induction 1 as [|x l Hx _ IH]; cbn; congruence. Qed.

Lemma stretch_id {T} (n : nat) (l : list T) : length l = n → stretch n l = l.
Proof. destruct l as [|x [|y l]]; intros <-; reflexivity. Qed.

Lemma broadcast_dim_refl (n : nat) : broadcast_dim n n = Some n.
Proof. unfold broadcast_dim. rewrite Nat.eqb_refl. reflexivity. Qed.

Lemma rectangular_broadcast_to {T} (a : list (list T)) :
  rectangular a → broadcast_to (shape a) a = a.
Proof.
  intros Hw. destruct a as [|row a]; [reflexivity |].
  assert (Hrows : map (stretch (length row)) (row :: a) = row :: a).
  { apply map_fixed. eapply Forall_impl; [exact Hw |].
    intros r Hr. apply stretch_id. exact Hr. }
  unfold broadcast_to, shape. cbv beta iota delta [fst snd].
  rewrite Hrows. apply stretch_id. reflexivity.
Qed.

Section Elementwise.

Context {A B C : Type} (f : A → B → C).

(** On two arrays of one shape a numpy operator works position by
    position. *)
Lemma elementwise_same_shape (a : list (list A)) (b : list (list B)) :
  same_shape a b → elementwise f a b = inr (zip_with (zip_with f) a b).
Proof.
  intros (Ha & Hb & Hs). unfold elementwise.
  rewrite <- Hs, !broadcast_dim_refl.
  rewrite <- surjective_pairing, (rectangular_broadcast_to a Ha).
  rewrite Hs, (rectangular_broadcast_to b Hb). reflexivity.
Qed.

Lemma pixel_zip_with (a : list (list A)) (b : list (list B)) (r c : nat) :
  pixel (zip_with (zip_with f) a b) r c
  = pixel a r c ≫= fun x => pixel b r c ≫= fun y => Some (f x y).
Proof.
  unfold pixel. rewrite lookup_zip_with.
  destruct (a !! r) as [ra|]; [| reflexivity]. cbn.
  destruct (b !! r) as [rb|]; cbn.
  - rewrite lookup_zip_with. reflexivity.
  - destruct (ra !! c); reflexivity.
Qed.

Lemma same_shape_zip_with_l (a : list (list A)) (b : list (list B)) :
  same_shape a b → same_shape (zip_with (zip_with f) a b) a.
Proof.
  intros (Ha & Hb & Hs).
  assert (Hlen : Forall2 (fun ra rb => length ra = length rb) a b).
  { apply Forall2_same_length_lookup_2.
    - injection Hs; intros; assumption.
    - intros i ra rb Hra Hrb.
      unfold rectangular in Ha, Hb.
      rewrite (proj1 (Forall_lookup _ _) Ha i ra Hra).
      rewrite (proj1 (Forall_lookup _ _) Hb i rb Hrb), Hs. reflexivity. }
  assert (Hrows : Forall2 (fun rz ra => length rz = length ra)
                    (zip_with (zip_with f) a b) a).
  { clear Ha Hb Hs. induction Hlen as [|ra rb a b Hr _ IH]; constructor.
    - rewrite length_zip_with. lia.
    - exact IH. }
  assert (Hshape : shape (zip_with (zip_with f) a b) = shape a).
  { unfold shape. f_equal.
    - apply (Forall2_length _ _ _ Hrows).
    - destruct Hrows; [reflexivity | assumption]. }
  repeat split; [| exact Ha | exact Hshape].
  unfold rectangular. rewrite Hshape.
  clear Hshape. unfold rectangular in Ha.
  revert Ha. generalize (shape a).2. intros w Ha. clear Hs Hlen Hb.
  induction Hrows as [|rz ra z a Hr _ IH]; constructor.
  - inversion Ha; congruence.
  - apply IH. inversion Ha; assumption.
Qed.

End Elementwise.

Lemma same_shape_sym {A B} (a : list (list A)) (b : list (list B)) :
  same_shape a b → same_shape b a.
Proof. intros (Ha & Hb & Hs). repeat split; auto. Qed.

Lemma same_shape_trans {A B C} (a : list (list A)) (b : list (list B))
    (c : list (list C)) :
  same_shape a b → same_shape b c → same_shape a c.
Proof. intros (Ha & Hb & Hs) (_ & Hc & Hs'). repeat split; auto; congruence. Qed.

Lemma zip_with_fuse {A B C D E} (f1 : A → B → C) (f2 : A → B → D)
    (f3 : C → D → E) {F} (g : E → F) (l : list A) (k : list B) :
  map g (zip_with f3 (zip_with f1 l k) (zip_with f2 l k))
  = zip_with (fun x y => g (f3 (f1 x y) (f2 x y))) l k.
Proof.
  revert k. induction l as [|x l IH]; intros [|y k]; cbn; try reflexivity.
  f_equal. apply IH.
Qed.

(** Lines 35 to 44 on two bands of one shape: every pixel of the result is
    [ndvi_pixel] of the two pixels at that position. *)
Lemma compute_index_same_shape red nir :
  same_shape red nir →
  compute_index red nir
  = inr (zip_with (zip_with (fun y x => ndvi_pixel x y)) nir red).
Proof.
  intros Hs. apply same_shape_sym in Hs. unfold compute_index, np_sub, np_add, np_div.
  rewrite !(elementwise_same_shape _ nir red Hs).
  rewrite elementwise_same_shape.
  - f_equal. unfold np_clip, set_zero_where. rewrite !map_map.
    rewrite (zip_with_fuse (zip_with F32.sub) (zip_with F32.add) (zip_with F32.div)).
    apply zip_with_ext; try reflexivity.
    intros rown rowr. rewrite !map_map.
    apply (zip_with_fuse F32.sub F32.add F32.div).
  - eapply same_shape_trans; [apply same_shape_zip_with_l, Hs |].
    apply same_shape_sym, same_shape_zip_with_l, Hs.
Qed.

Lemma compute_index_defined red nir :
  same_shape red nir →
  ∃ ndvi, compute_index red nir = inr ndvi
          ∧ same_shape ndvi red
          ∧ ∀ r c, pixel ndvi r c
                   = pixel nir r c ≫= fun y => pixel red r c ≫= fun x =>
                     Some (ndvi_pixel x y).
Proof.
  intros Hs. eexists. split; [apply compute_index_same_shape, Hs |]. split.
  - apply same_shape_sym in Hs.
    eapply same_shape_trans; [apply same_shape_zip_with_l, Hs | exact Hs].
  - intros r c. apply pixel_zip_with.
Qed.

(** The value at a position that both bands have. *)
Lemma compute_index_at red nir r c x y :
  same_shape red nir → pixel red r c = Some x → pixel nir r c = Some y →
  ∃ ndvi, compute_index red nir = inr ndvi
          ∧ pixel ndvi r c = Some (ndvi_pixel x y).
Proof.
  intros Hs Hx Hy. destruct (compute_index_defined red nir Hs) as (ndvi & H & _ & Hp).
  exists ndvi. split; [exact H |]. rewrite Hp, Hy, Hx. reflexivity.
Qed.

(** Every value of the result comes from a position of the two bands. *)
Lemma compute_index_from red nir ndvi r c v :
  same_shape red nir → compute_index red nir = inr ndvi → pixel ndvi r c = Some v →
  ∃ x y, pixel red r c = Some x ∧ pixel nir r c = Some y ∧ v = ndvi_pixel x y.
Proof.
  intros Hs H Hv. destruct (compute_index_defined red nir Hs) as (ndvi' & H' & _ & Hp).
  assert (ndvi' = ndvi) by congruence. subst ndvi'.
  rewrite Hp in Hv.
  destruct (pixel nir r c) as [y|]; [| discriminate]. cbn in Hv.
  destruct (pixel red r c) as [x|]; [| discriminate]. cbn in Hv.
  exists x, y. repeat split; congruence.
Qed.

Lemma ndvi_pixel_in_range x y :
  F32.leb (F32.of_Z (-1)) (ndvi_pixel x y) = true
  ∧ F32.leb (ndvi_pixel x y) (F32.of_Z 1) = true.
Proof.
  unfold ndvi_pixel. apply clip_in_range.
  destruct (ratio x y); reflexivity.
Qed.

(** ** Rounding never overflows on small integers

    The exponent of a rounded result is bounded by the size of what was
    rounded; sums, differences and quotients of samples that were integers
    below [2 ^ 16] in absolute value therefore stay finite. *)

Lemma fexp_eq e : fexp F32.prec F32.emax e = Z.max (e - 24) (-149).
Proof. reflexivity. Qed.

Lemma digits2_pos_size p : digits2_pos p = Pos.size p.
Proof. induction p; cbn; congruence. Qed.

Lemma Zdigits2_log2 m : 0 < m → Zdigits2 m = Z.log2 m + 1.
Proof.
  destruct m as [|p|p]; try lia. intros _.
  unfold Zdigits2. rewrite digits2_pos_size.
  destruct p as [p|p|]; cbn; try reflexivity; lia.
Qed.

(** [m < 2 ^ Zdigits2 m], and the number of digits is the least such
    exponent. *)
Lemma Zdigits2_bound m : 0 <= m → 0 <= Zdigits2 m ∧ m < 2 ^ Zdigits2 m.
Proof.
  intros Hm. destruct (Z.eq_dec m 0) as [-> | Hne]; [cbn; lia |].
  rewrite Zdigits2_log2 by lia.
  pose proof (Z.log2_nonneg m). split; [lia |].
  apply Z.log2_lt_pow2; lia.
Qed.

Lemma Zdigits2_le m k : 0 <= m → 0 <= k → m < 2 ^ k → Zdigits2 m <= k.
Proof.
  intros Hm Hk Hlt. destruct (Z.eq_dec m 0) as [-> | Hne]; [cbn; lia |].
  rewrite Zdigits2_log2 by lia.
  assert (Z.log2 m < k) by (apply Z.log2_lt_pow2; lia). lia.
Qed.

Lemma Zdigits2_pos m : 0 < m → 1 <= Zdigits2 m.
Proof. intros. rewrite Zdigits2_log2 by lia. pose proof (Z.log2_nonneg m). lia. Qed.

Lemma shr_m_of_loc m l : shr_m (shr_record_of_loc m l) = m.
Proof. destruct l as [|[]]; reflexivity. Qed.

Lemma shr_1_m mrs : 0 <= shr_m mrs → shr_m (shr_1 mrs) = shr_m mrs / 2.
Proof.
  destruct mrs as [m r s]. cbn [shr_m]. intros Hm.
  rewrite <- Z.div2_div.
  destruct m as [|[p|p|]|p]; try reflexivity. lia.
Qed.

Lemma shr_1_nonneg mrs : 0 <= shr_m mrs → 0 <= shr_m (shr_1 mrs).
Proof. intros H. rewrite shr_1_m by assumption. apply Z.div_pos; lia. Qed.

Lemma iter_shr_1_nonneg p mrs :
  0 <= shr_m mrs → 0 <= shr_m (SpecFloat.iter_pos shr_1 p mrs).
Proof.
  revert mrs. induction p as [p IH|p IH|]; intros mrs Hm; cbn [SpecFloat.iter_pos].
  - apply IH, IH, shr_1_nonneg, Hm.
  - apply IH, IH, Hm.
  - apply shr_1_nonneg, Hm.
Qed.

Lemma iter_shr_1_m p mrs :
  0 <= shr_m mrs → shr_m (SpecFloat.iter_pos shr_1 p mrs) = shr_m mrs / 2 ^ Z.pos p.
Proof.
  revert mrs. induction p as [p IH|p IH|]; intros mrs Hm; cbn [SpecFloat.iter_pos].
  - rewrite IH by apply iter_shr_1_nonneg, shr_1_nonneg, Hm.
    rewrite IH by apply shr_1_nonneg, Hm.
    rewrite shr_1_m by assumption.
    rewrite !Z.div_div by lia.
    f_equal. rewrite Pos2Z.inj_xI, <- !Z.pow_add_r, <- Z.pow_succ_r by lia.
    f_equal. lia.
  - rewrite IH by apply iter_shr_1_nonneg, Hm.
    rewrite IH by assumption.
    rewrite !Z.div_div by lia.
    f_equal. rewrite Pos2Z.inj_xO, <- !Z.pow_add_r by lia. f_equal. lia.
  - rewrite shr_1_m by assumption. reflexivity.
Qed.

(** One alignment step of the rounding: the exponent moves up to
    [fexp (digits + e)] when that is above [e], and the mantissa is divided
    accordingly and fits in 24 bits afterwards. *)
Lemma shr_fexp_bounds m e l :
  0 <= m →
  let r := shr_fexp F32.prec F32.emax m e l in
  0 <= shr_m r.1 < 2 ^ 24
  ∧ r.2 = Z.max e (fexp F32.prec F32.emax (Zdigits2 m + e))
  ∧ shr_m r.1 <= m.
Proof.
  intros Hm. unfold shr_fexp, shr. rewrite fexp_eq.
  destruct (Zdigits2_bound m Hm) as [Hd Hlt].
  set (d := Zdigits2 m) in *.
  destruct (Z.max (d + e - 24) (-149) - e) as [|n|n] eqn:Hn; cbn [fst snd].
  - rewrite shr_m_of_loc.
    assert (2 ^ d <= 2 ^ 24) by (apply Z.pow_le_mono_r; lia). lia.
  - rewrite iter_shr_1_m by (rewrite shr_m_of_loc; lia). rewrite shr_m_of_loc.
    assert (0 < 2 ^ Z.pos n) by (apply Z.pow_pos_nonneg; lia).
    repeat split.
    + apply Z.div_pos; lia.
    + apply Z.div_lt_upper_bound; [lia |].
      rewrite <- Z.pow_add_r by lia.
      assert (2 ^ d <= 2 ^ (Z.pos n + 24)) by (apply Z.pow_le_mono_r; lia). lia.
    + lia.
    + apply Z.div_le_upper_bound; nia.
  - rewrite shr_m_of_loc.
    assert (2 ^ d <= 2 ^ 24) by (apply Z.pow_le_mono_r; lia). lia.
Qed.

Lemma round_nearest_even_bounds m l :
  m <= round_nearest_even m l <= m + 1.
Proof. destruct l as [|[]]; cbn; try destruct (Z.even m); lia. Qed.

Lemma rounded_weaken lo hi lo' hi' x :
  rounded lo hi x → lo' <= lo → hi <= hi' → rounded lo' hi' x.
Proof. destruct x; cbn; lia. Qed.

Lemma binary_round_aux_bounds s m e l D :
  0 <= m < 2 ^ D → 0 <= D →
  rounded e (Z.max e (Z.max (D + e - 24) (-149)) + 1)
    (binary_round_aux F32.prec F32.emax s m e l).
Proof.
  intros [Hm HD] HD0. unfold binary_round_aux.
  pose proof (shr_fexp_bounds m e l Hm) as H1. cbn zeta in H1.
  destruct (shr_fexp F32.prec F32.emax m e l) as [mrs' e']. cbn [fst snd] in H1.
  destruct H1 as ([Hm1 Hm1'] & He' & _).
  pose proof (round_nearest_even_bounds (shr_m mrs') (loc_of_shr_record mrs')) as Hr.
  set (m1 := round_nearest_even _ _) in *.
  assert (Hm1nn : 0 <= m1) by lia.
  pose proof (shr_fexp_bounds m1 e' loc_Exact Hm1nn) as H2. cbn zeta in H2.
  destruct (shr_fexp F32.prec F32.emax m1 e' loc_Exact) as [mrs'' e'']. cbn [fst snd] in H2.
  destruct H2 as ([Hm2 Hm2'] & He'' & _).
  assert (Hd : Zdigits2 m <= D) by (apply Zdigits2_le; lia).
  assert (Hd1 : Zdigits2 m1 <= 25) by (apply Zdigits2_le; lia).
  rewrite fexp_eq in He', He''.
  assert (He''hi : e <= e'' <= Z.max e (Z.max (D + e - 24) (-149)) + 1) by lia.
  destruct (shr_m mrs'') as [|p|p]; cbn; [exact I | | lia].
  destruct (e'' <=? F32.emax - F32.prec) eqn:Hle; cbn.
  - lia.
  - apply Z.leb_gt in Hle. unfold F32.emax, F32.prec in Hle. lia.
Qed.

Lemma pos_iter_xO m d : Z.pos (Pos.iter xO m d) = Z.pos m * 2 ^ Z.pos d.
Proof.
  induction d as [|d IH] using Pos.peano_ind.
  - cbn. lia.
  - rewrite Pos.iter_succ, Pos2Z.inj_xO, IH, Pos2Z.inj_succ, Z.pow_succ_r by lia. lia.
Qed.

Lemma shl_align_spec m e t :
  (shl_align m e t).2 = Z.min e t
  ∧ Z.pos (shl_align m e t).1 = Z.pos m * 2 ^ (e - Z.min e t).
Proof.
  unfold shl_align. destruct (t - e) as [|d|d] eqn:Hd; cbn [fst snd].
  - replace (Z.min e t) with e by lia. rewrite Z.sub_diag. lia.
  - replace (Z.min e t) with e by lia. rewrite Z.sub_diag. lia.
  - replace (Z.min e t) with t by lia. split; [reflexivity |].
    rewrite pos_iter_xO. f_equal. f_equal. lia.
Qed.

Lemma binary_round_bounds s m e D :
  Z.pos m < 2 ^ D → 0 <= D →
  rounded (e - 23) (Z.max (D + e - 24) (-149) + 1) (binary_round F32.prec F32.emax s m e).
Proof.
  intros Hm HD. unfold binary_round.
  pose proof (shl_align_spec m e (fexp F32.prec F32.emax (Z.pos (digits2_pos m) + e)))
    as [Hez Hmz].
  destruct (shl_align m e _) as [mz ez]. cbn [fst snd] in Hez, Hmz.
  rewrite fexp_eq in Hez, Hmz. rewrite <- Hez in Hmz.
  assert (Hd : 1 <= Z.pos (digits2_pos m) <= D).
  { change (Z.pos (digits2_pos m)) with (Zdigits2 (Z.pos m)).
    split; [apply Zdigits2_pos; lia | apply Zdigits2_le; lia]. }
  assert (Hmz' : 0 <= Z.pos mz < 2 ^ (D + (e - ez))).
  { split; [lia |]. rewrite Hmz, Z.pow_add_r by lia.
    apply Z.mul_lt_mono_pos_r; [apply Z.pow_pos_nonneg; lia | exact Hm]. }
  eapply rounded_weaken;
    [apply (binary_round_aux_bounds s (Z.pos mz) ez loc_Exact (D + (e - ez)));
     [exact Hmz' | lia] | lia | lia].
Qed.

Lemma binary_normalize_bounds z e D :
  Z.abs z < 2 ^ D → 0 <= D →
  rounded (e - 23) (Z.max (D + e - 24) (-149) + 1)
    (binary_normalize F32.prec F32.emax z e false).
Proof.
  intros Hz HD. destruct z as [|p|p]; cbn [binary_normalize].
  - exact I.
  - apply binary_round_bounds; [exact Hz | exact HD].
  - apply binary_round_bounds; [exact Hz | exact HD].
Qed.

Lemma aligned_bound s m e ez :
  Z.pos m < 2 ^ 24 → ez <= e <= ez + 16 →
  Z.abs (cond_Zopp s (Z.pos (shl_align m e ez).1)) < 2 ^ 40.
Proof.
  intros Hm He. destruct (shl_align_spec m e ez) as [_ ->].
  replace (Z.min e ez) with ez by lia.
  assert (0 < 2 ^ (e - ez) <= 2 ^ 16)
    by (split; [apply Z.pow_pos_nonneg; lia | apply Z.pow_le_mono_r; lia]).
  assert (Z.pos m * 2 ^ (e - ez) < 2 ^ 24 * 2 ^ 16) by nia.
  change (2 ^ 40) with (2 ^ 24 * 2 ^ 16).
  destruct s; cbn [cond_Zopp]; lia.
Qed.

(** Sums and differences of two numbers with exponents between -23 and
    -7. *)
Lemma add_bounds x y :
  rounded (-23) (-7) x → rounded (-23) (-7) y →
  rounded (-46) 11 (F32.add x y).
Proof.
  destruct x as [sx|sx| |sx mx ex], y as [sy|sy| |sy my ey]; cbn [rounded];
    try lia; try tauto.
  - intros _ _. destruct sx, sy; exact I.
  - intros _ H.
    apply (rounded_weaken (-23) (-7) _ _ (S754_finite sy my ey)); [exact H | lia | lia].
  - intros H _.
    apply (rounded_weaken (-23) (-7) _ _ (S754_finite sx mx ex)); [exact H | lia | lia].
  - intros [Hmx Hex] [Hmy Hey]. unfold F32.add, SFadd.
    pose proof (aligned_bound sx mx ex (Z.min ex ey) Hmx ltac:(lia)) as HX.
    pose proof (aligned_bound sy my ey (Z.min ex ey) Hmy ltac:(lia)) as HY.
    eapply rounded_weaken;
      [apply (binary_normalize_bounds _ (Z.min ex ey) 41); [| lia] | lia | lia].
    change (2 ^ 41) with (2 ^ 40 + 2 ^ 40).
    revert HX HY. generalize (2 ^ 40), (cond_Zopp sx (Z.pos (shl_align mx ex (Z.min ex ey)).1)),
      (cond_Zopp sy (Z.pos (shl_align my ey (Z.min ex ey)).1)).
    intros; lia.
Qed.

Lemma sub_bounds x y :
  rounded (-23) (-7) x → rounded (-23) (-7) y →
  rounded (-46) 11 (F32.sub x y).
Proof.
  destruct x as [sx|sx| |sx mx ex], y as [sy|sy| |sy my ey]; cbn [rounded];
    try lia; try tauto.
  - intros _ _. destruct sx, sy; exact I.
  - intros _ H.
    apply (rounded_weaken (-23) (-7) _ _ (S754_finite (negb sy) my ey));
      [exact H | lia | lia].
  - intros H _.
    apply (rounded_weaken (-23) (-7) _ _ (S754_finite sx mx ex)); [exact H | lia | lia].
  - intros [Hmx Hex] [Hmy Hey]. unfold F32.sub, SFsub.
    pose proof (aligned_bound sx mx ex (Z.min ex ey) Hmx ltac:(lia)) as HX.
    pose proof (aligned_bound sy my ey (Z.min ex ey) Hmy ltac:(lia)) as HY.
    eapply rounded_weaken;
      [apply (binary_normalize_bounds _ (Z.min ex ey) 41); [| lia] | lia | lia].
    change (2 ^ 41) with (2 ^ 40 + 2 ^ 40).
    revert HX HY. generalize (2 ^ 40), (cond_Zopp sx (Z.pos (shl_align mx ex (Z.min ex ey)).1)),
      (cond_Zopp sy (Z.pos (shl_align my ey (Z.min ex ey)).1)).
    intros; lia.
Qed.

(** The quotient of two such results by a divisor that is not zero is
    finite. *)
Lemma div_bounds x y :
  rounded (-46) 11 x → rounded (-46) 11 y →
  F32.is_zero y = false →
  F32.is_finite (F32.div x y) = true.
Proof.
  destruct x as [sx|sx| |sx mx ex], y as [sy|sy| |sy my ey]; cbn [rounded];
    try lia; try tauto; try discriminate; try (intros; reflexivity).
  intros [Hmx Hex] [Hmy Hey] _. unfold F32.div, SFdiv, SFdiv_core_binary.
  set (e' := Z.min _ _).
  set (m' := match ex - ey - e' with Z.pos _ => _ | 0 => _ | Z.neg _ => _ end).
  assert (He' : e' <= ex - ey) by (unfold e'; lia).
  assert (Hm' : 0 <= m' < 2 ^ (24 + (ex - ey - e'))).
  { unfold m'. destruct (ex - ey - e') as [|s|s] eqn:Hs; try lia.
    rewrite Z.shiftl_mul_pow2 by lia. rewrite Z.pow_add_r by lia.
    assert (0 < 2 ^ Z.pos s) by (apply Z.pow_pos_nonneg; lia). nia. }
  pose proof (Z_div_mod m' (Z.pos my) ltac:(lia)) as Hdiv.
  destruct (Z.div_eucl m' (Z.pos my)) as [q r].
  assert (Hq : 0 <= q < 2 ^ (24 + (ex - ey - e'))) by nia.
  pose proof (binary_round_aux_bounds (xorb sx sy) q e'
                (new_location (Z.pos my) r) (24 + (ex - ey - e')) Hq ltac:(lia))
    as Hb.
  destruct (binary_round_aux _ _ _ _ _ _); cbn [rounded] in Hb;
    try reflexivity; lia.
Qed.

Lemma of_Z_bounds z : Z.abs z < 2 ^ 16 → rounded (-23) (-7) (F32.of_Z z).
Proof.
  intros Hz. apply (binary_normalize_bounds z 0 16); [exact Hz | lia].
Qed.

(** For integer samples of at most 16 bits the quotient of line 36 is
    finite wherever the denominator is not zero. *)
Lemma ratio_of_integers_finite x y :
  Z.abs x < 2 ^ 16 → Z.abs y < 2 ^ 16 →
  F32.eqb (F32.add (F32.of_Z y) (F32.of_Z x)) (F32.of_Z 0) = false →
  F32.is_finite (ratio (F32.of_Z x) (F32.of_Z y)) = true.
Proof.
  intros Hx Hy Hden. unfold ratio.
  apply div_bounds.
  - apply sub_bounds; apply of_Z_bounds; assumption.
  - apply add_bounds; apply of_Z_bounds; assumption.
  - rewrite <- eqb_zero_is_zero. exact Hden.
Qed.

(** ** The index values (lines 30 to 44) *)

(** C1, as stated, fails: the two samples are finite and their sum is not
    zero, but their difference overflows, the quotient is an infinity, line
    42 stores 0 there, and the clamp of the quotient is 1. *)
Lemma C1_overflow_counterexample :
  F32.valid big_red = true ∧ F32.valid big_nir = true
  ∧ F32.eqb (F32.add big_nir big_red) (F32.of_Z 0) = false
  ∧ compute_index [[big_red]] [[big_nir]] = inr [[F32.of_Z 0]]
  ∧ clip (F32.of_Z (-1)) (F32.of_Z 1) (ratio big_red big_nir) = F32.of_Z 1
  ∧ F32.eqb (F32.of_Z 0) (F32.of_Z 1) = false.
Proof. repeat split; vm_compute; reflexivity. Qed.

(** C1, amended: at every pixel where [nir + red != 0], the value computed
    by lines 30 to 44 is [clamp((nir - red) / (nir + red), -1, 1)] in
    binary32 arithmetic whenever that quotient is finite, and is 0 where
    the quotient is an infinity or a NaN. *)
Theorem C1_index_is_clamped_finite_ratio red nir r c x y :
  same_shape red nir → pixel red r c = Some x → pixel nir r c = Some y →
  F32.eqb (F32.add y x) (F32.of_Z 0) = false →
  ∃ ndvi, compute_index red nir = inr ndvi
    ∧ ∃ v, pixel ndvi r c = Some v
      ∧ (F32.is_finite (ratio x y) = true →
         v = clip (F32.of_Z (-1)) (F32.of_Z 1) (ratio x y))
      ∧ (F32.is_finite (ratio x y) = false → v = F32.of_Z 0).
Proof.
  intros Hs Hx Hy _.
  destruct (compute_index_at red nir r c x y Hs Hx Hy) as (ndvi & H & Hv).
  exists ndvi. split; [exact H |]. exists (ndvi_pixel x y). split; [exact Hv |].
  split; intros Hfin.
  - apply ndvi_pixel_finite, Hfin.
  - apply ndvi_pixel_not_finite, Hfin.
Qed.

Lemma same_shape_samples : same_shape sample_red sample_nir.
Proof. repeat split; repeat constructor. Qed.

Lemma C1_index_is_clamped_finite_ratio_witness :
  ∃ ndvi, compute_index sample_red sample_nir = inr ndvi
    ∧ ∃ v, pixel ndvi 0 0 = Some v
      ∧ (F32.is_finite (ratio (F32.of_Z 1000) (F32.of_Z 3000)) = true →
         v = clip (F32.of_Z (-1)) (F32.of_Z 1) (ratio (F32.of_Z 1000) (F32.of_Z 3000)))
      ∧ (F32.is_finite (ratio (F32.of_Z 1000) (F32.of_Z 3000)) = false →
         v = F32.of_Z 0).
Proof.
  apply (C1_index_is_clamped_finite_ratio sample_red sample_nir 0 0
           (F32.of_Z 1000) (F32.of_Z 3000)).
  - exact same_shape_samples.
  - reflexivity.
  - reflexivity.
  - vm_compute. reflexivity.
Defined.

(** For bands read from a file of 8- or 16-bit integers the quotient is
    always finite, so that the value is the clamped quotient at every pixel
    where [nir + red != 0]. *)
Lemma index_of_integer_samples red nir r c x y :
  same_shape red nir →
  pixel red r c = Some (F32.of_Z x) → pixel nir r c = Some (F32.of_Z y) →
  Z.abs x < 2 ^ 16 → Z.abs y < 2 ^ 16 →
  F32.eqb (F32.add (F32.of_Z y) (F32.of_Z x)) (F32.of_Z 0) = false →
  ∃ ndvi, compute_index red nir = inr ndvi
    ∧ pixel ndvi r c
      = Some (clip (F32.of_Z (-1)) (F32.of_Z 1) (ratio (F32.of_Z x) (F32.of_Z y))).
Proof.
  intros Hs Hx Hy Hxb Hyb Hden.
  destruct (compute_index_at red nir r c _ _ Hs Hx Hy) as (ndvi & H & Hv).
  exists ndvi. split; [exact H |]. rewrite Hv. f_equal.
  apply ndvi_pixel_finite, ratio_of_integers_finite; assumption.
Qed.

(** Red 1000 and near-infrared 3000 give one half. *)
Example index_of_1000_3000 :
  ndvi_pixel (F32.of_Z 1000) (F32.of_Z 3000) = S754_finite false 8388608 (-24).
Proof. reflexivity. Qed.

(** C2: at every pixel where [nir + red == 0], and at every pixel where the
    quotient is not finite, the value computed by lines 35 to 44 is exactly
    0 (the binary32 [+0.0] that lines 40 and 42 store), which is not the
    no-data value -9999. *)
Theorem C2_zero_denominator_gives_zero red nir r c x y :
  same_shape red nir → pixel red r c = Some x → pixel nir r c = Some y →
  F32.eqb (F32.add y x) (F32.of_Z 0) = true ∨ F32.is_finite (ratio x y) = false →
  ∃ ndvi, compute_index red nir = inr ndvi
    ∧ pixel ndvi r c = Some (F32.of_Z 0)
    ∧ F32.of_Z 0 = S754_zero false
    ∧ F32.eqb (F32.of_Z 0) (F32.of_Z (-9999)) = false.
Proof.
  intros Hs Hx Hy Hzero.
  destruct (compute_index_at red nir r c x y Hs Hx Hy) as (ndvi & H & Hv).
  exists ndvi. split; [exact H |]. split; [| split; reflexivity].
  rewrite Hv. f_equal. apply ndvi_pixel_not_finite.
  destruct Hzero as [Hden | Hfin]; [| exact Hfin].
  apply div_by_zero_not_finite. rewrite <- eqb_zero_is_zero. exact Hden.
Qed.

Lemma C2_zero_denominator_gives_zero_witness :
  ∃ ndvi, compute_index sample_red sample_nir = inr ndvi
    ∧ pixel ndvi 0 1 = Some (F32.of_Z 0)
    ∧ F32.of_Z 0 = S754_zero false
    ∧ F32.eqb (F32.of_Z 0) (F32.of_Z (-9999)) = false.
Proof.
  apply (C2_zero_denominator_gives_zero sample_red sample_nir 0 1
           (F32.of_Z 0) (F32.of_Z 0)).
  - exact same_shape_samples.
  - reflexivity.
  - reflexivity.
  - left. reflexivity.
Defined.

(** C3: for two bands of one shape, finite or not, lines 35 to 44 return an
    array, and every value [v] of it satisfies [-1 <= v <= 1]; in particular
    no value is the no-data value -9999. *)
Theorem C3_index_in_range red nir :
  same_shape red nir →
  ∃ ndvi, compute_index red nir = inr ndvi
    ∧ ∀ r c v, pixel ndvi r c = Some v →
        F32.leb (F32.of_Z (-1)) v = true
        ∧ F32.leb v (F32.of_Z 1) = true
        ∧ F32.eqb v (F32.of_Z (-9999)) = false.
Proof.
  intros Hs.
  destruct (compute_index_defined red nir Hs) as (ndvi & H & _ & _).
  exists ndvi. split; [exact H |]. intros r c v Hv.
  destruct (compute_index_from red nir ndvi r c v Hs H Hv) as (x & y & _ & _ & ->).
  destruct (ndvi_pixel_in_range x y) as [Hlo Hhi].
  repeat split; try assumption. apply in_range_not_nodata, Hlo.
Qed.

Lemma C3_index_in_range_witness :
  ∃ ndvi, compute_index sample_red sample_nir = inr ndvi
    ∧ ∀ r c v, pixel ndvi r c = Some v →
        F32.leb (F32.of_Z (-1)) v = true
        ∧ F32.leb v (F32.of_Z 1) = true
        ∧ F32.eqb v (F32.of_Z (-9999)) = false.
Proof. apply (C3_index_in_range sample_red sample_nir), same_shape_samples. Defined.

(** C8: for two bands [a] and [b] of one shape, finite or not, both orders
    of the bands give an array, and at every pixel the value [v] of
    [compute_index a b] and the value [w] of [compute_index b a] satisfy
    [v == - w] as floats; they are the same binary32 datum [v = - w] except
    where both values are zeros. *)
Theorem C8_swapping_bands_changes_sign a b :
  same_shape a b →
  ∃ ab ba, compute_index a b = inr ab ∧ compute_index b a = inr ba
    ∧ ∀ r c v, pixel ab r c = Some v →
        ∃ w, pixel ba r c = Some w
          ∧ F32.eqb v (F32.opp w) = true
          ∧ (v = F32.opp w ∨ (F32.is_zero v = true ∧ F32.is_zero w = true)).
Proof.
  intros Hs.
  destruct (compute_index_defined a b Hs) as (ab & Hab & _ & _).
  destruct (compute_index_defined b a (same_shape_sym a b Hs)) as (ba & Hba & _ & Hp).
  exists ab, ba. repeat split; try assumption.
  intros r c v Hv.
  destruct (compute_index_from a b ab r c v Hs Hab Hv) as (x & y & Hx & Hy & ->).
  exists (ndvi_pixel y x). split.
  - rewrite Hp, Hx. cbn. rewrite Hy. reflexivity.
  - apply ndvi_pixel_swap.
Qed.

Lemma C8_swapping_bands_changes_sign_witness :
  ∃ ab ba, compute_index sample_red sample_nir = inr ab
    ∧ compute_index sample_nir sample_red = inr ba
    ∧ ∀ r c v, pixel ab r c = Some v →
        ∃ w, pixel ba r c = Some w
          ∧ F32.eqb v (F32.opp w) = true
          ∧ (v = F32.opp w ∨ (F32.is_zero v = true ∧ F32.is_zero w = true)).
Proof.
  apply (C8_swapping_bands_changes_sign sample_red sample_nir), same_shape_samples.
Defined.

(** ** The pipeline (lines 17 to 70) *)

Section PipelineFacts.

Variable lib : rasterio.
Variables input_path output_path : string.

Lemma bands_exist_false (count red_band_num nir_band_num : Z) :
  bands_exist count red_band_num nir_band_num = false
  ↔ (red_band_num < 1 ∨ red_band_num > count
     ∨ nir_band_num < 1 ∨ nir_band_num > count).
Proof.
  unfold bands_exist. rewrite !andb_false_iff, !Z.ltb_ge, !Z.leb_gt. lia.
Qed.

Lemma process_invalid src red_band_num nir_band_num tr :
  bands_exist (ds_count src) red_band_num nir_band_num = false →
  process lib input_path output_path src red_band_num nir_band_num tr
  = (inl (ValueError
            (invalid_band_message (ds_count src) red_band_num nir_band_num)), tr).
Proof. intros H. unfold process. rewrite H. reflexivity. Qed.

Lemma process_valid src red_band_num nir_band_num red nir tr :
  bands_exist (ds_count src) red_band_num nir_band_num = true →
  ds_read src red_band_num = inr red → ds_read src nir_band_num = inr nir →
  process lib input_path output_path src red_band_num nir_band_num tr
  = (ndvi ← lift (compute_index (astype_float32 red) (astype_float32 nir));
     write_output lib output_path src ndvi)
      (tr ++ [EvRead input_path red_band_num; EvRead input_path nir_band_num]).
Proof.
  intros H Hred Hnir. unfold process. rewrite H. cbn [negb].
  unfold read_band, mbind, M_bind, bind, emit, lift.
  rewrite Hred, Hnir, <- app_assoc. reflexivity.
Qed.

(** With valid band numbers the first thing the body does is read the red
    band. *)
Lemma process_valid_reads src red_band_num nir_band_num tr :
  bands_exist (ds_count src) red_band_num nir_band_num = true →
  ∃ evs, (process lib input_path output_path src red_band_num nir_band_num tr).2
         = tr ++ EvRead input_path red_band_num :: evs.
Proof.
  intros H. unfold process. rewrite H. cbn [negb].
  unfold read_band, write_output, create_dataset, write_band, closing,
    mbind, M_bind, bind, emit, lift, lift_status.
  destruct (ds_read src red_band_num) as [e|red]; [exists []; reflexivity |].
  destruct (ds_read src nir_band_num) as [e|nir];
    [eexists; cbn; rewrite <- app_assoc; reflexivity |].
  destruct (compute_index _ _) as [e|ndvi];
    [eexists; cbn; rewrite <- app_assoc; reflexivity |].
  destruct (rio_create lib _ _) as [e|];
    [eexists; cbn; rewrite <- !app_assoc; reflexivity |].
  eexists; cbn; rewrite <- !app_assoc; reflexivity.
Qed.

Lemma pipeline_opened src red_band_num nir_band_num tr :
  rio_open lib input_path = inr src →
  pipeline lib input_path output_path red_band_num nir_band_num tr
  = match process lib input_path output_path src red_band_num nir_band_num
            (tr ++ [EvOpen input_path]) with
    | (inl e, tr') => (inl e, tr' ++ [EvClose input_path])
    | (inr _, tr') =>
        (inr tt, (tr' ++ [EvClose input_path])
                 ++ [EvPrint ("NDVI calculation complete. Output saved to: "
                                +:+ output_path)])
    end.
Proof.
  intros Hopen. unfold pipeline, open_dataset, closing, print,
    mbind, M_bind, bind, emit, lift.
  rewrite Hopen.
  destruct (process _ _ _ _ _ _ _) as [[e|[]] tr']; reflexivity.
Qed.

Lemma pipeline_not_opened e red_band_num nir_band_num tr :
  rio_open lib input_path = inl e →
  pipeline lib input_path output_path red_band_num nir_band_num tr
  = (inl e, tr ++ [EvOpen input_path]).
Proof.
  intros Hopen. unfold pipeline, open_dataset, mbind, M_bind, bind, emit, lift.
  rewrite Hopen. reflexivity.
Qed.

End PipelineFacts.

(** The handlers of lines 66 to 70 turn every exception of the body into
    printed lines. *)
Lemma calculate_ndvi_returns lib input_path output_path red_band_num nir_band_num tr :
  calculate_ndvi lib input_path output_path red_band_num nir_band_num tr
  = (inr tt,
     match pipeline lib input_path output_path red_band_num nir_band_num tr with
     | (inr _, tr') => tr'
     | (inl (FileNotFoundError _), tr') =>
         tr' ++ [EvPrint ("Error: Input file not found at '" +:+ input_path +:+ "'");
                 EvPrint "Please run 'create_mock_geotiff.py' first to generate the sample file."]
     | (inl e, tr') => tr' ++ [EvPrint ("An error occurred: " +:+ str e)]
     end).
Proof.
  unfold calculate_ndvi, try_except.
  destruct (pipeline _ _ _ _ _ _) as [[e|[]] tr']; [| reflexivity].
  destruct e; unfold print, mbind, M_bind, bind, emit; cbn;
    rewrite <- ?app_assoc; reflexivity.
Qed.

(** *** Failures *)

(** C4, as stated, fails: band 6 of the five-band sample is a failure of
    the pipeline, and [calculate_ndvi] returns normally, as it does on
    success, after printing one line. *)
Lemma C4_failure_absorbed_counterexample :
  pipeline sample_lib "sample_multiband.tif" "ndvi_output.tif" 6 2 []
  = (inl (ValueError "Invalid band numbers. File has 5 bands, but Red band 6 and NIR band 2 were requested."),
     [EvOpen "sample_multiband.tif"; EvClose "sample_multiband.tif"])
  ∧ calculate_ndvi sample_lib "sample_multiband.tif" "ndvi_output.tif" 6 2 []
    = (inr tt,
       [EvOpen "sample_multiband.tif"; EvClose "sample_multiband.tif";
        EvPrint "An error occurred: Invalid band numbers. File has 5 bands, but Red band 6 and NIR band 2 were requested."]).
Proof. split; vm_compute; reflexivity. Qed.

(** C4, amended: no failure of the pipeline reaches the caller of
    [calculate_ndvi].  The function always returns normally; when the body
    of the [try] raises, nothing more of the body runs, and the handler
    prints the two file-not-found lines for a [FileNotFoundError] and
    ["An error occurred: "] followed by the text of the exception for any
    other one. *)
Theorem C4_failures_are_printed_not_raised lib input_path output_path
    red_band_num nir_band_num tr :
  calculate_ndvi lib input_path output_path red_band_num nir_band_num tr
  = (inr tt,
     match pipeline lib input_path output_path red_band_num nir_band_num tr with
     | (inr _, tr') => tr'
     | (inl (FileNotFoundError _), tr') =>
         tr' ++ [EvPrint ("Error: Input file not found at '" +:+ input_path +:+ "'");
                 EvPrint "Please run 'create_mock_geotiff.py' first to generate the sample file."]
     | (inl e, tr') => tr' ++ [EvPrint ("An error occurred: " +:+ str e)]
     end).
Proof. apply calculate_ndvi_returns. Qed.

(** C5: once the input is open, the body of the [try] stops with the
    [ValueError] of line 23 (the spec's InvalidBand), having read no band
    and having only closed the input, exactly when a band number is below 1
    or above the band count; its message spells out the band count and
    both requested numbers, and [calculate_ndvi] prints it. *)
Theorem C5_invalid_band lib input_path output_path src red_band_num nir_band_num tr :
  rio_open lib input_path = inr src →
  let message :=
    "Invalid band numbers. File has " +:+ pretty (ds_count src) +:+ " bands, "
      +:+ "but Red band " +:+ pretty red_band_num
      +:+ " and NIR band " +:+ pretty nir_band_num +:+ " were requested." in
  ((red_band_num < 1 ∨ red_band_num > ds_count src
    ∨ nir_band_num < 1 ∨ nir_band_num > ds_count src)
   ↔ pipeline lib input_path output_path red_band_num nir_band_num tr
     = (inl (ValueError message), tr ++ [EvOpen input_path; EvClose input_path]))
  ∧ ((red_band_num < 1 ∨ red_band_num > ds_count src
      ∨ nir_band_num < 1 ∨ nir_band_num > ds_count src) →
     calculate_ndvi lib input_path output_path red_band_num nir_band_num tr
     = (inr tt, tr ++ [EvOpen input_path; EvClose input_path;
                       EvPrint ("An error occurred: " +:+ message)])).
Proof.
  intros Hopen message.
  assert (Hbad : (red_band_num < 1 ∨ red_band_num > ds_count src
                  ∨ nir_band_num < 1 ∨ nir_band_num > ds_count src) →
                 pipeline lib input_path output_path red_band_num nir_band_num tr
                 = (inl (ValueError message),
                    tr ++ [EvOpen input_path; EvClose input_path])).
  { intros Hb. apply bands_exist_false in Hb.
    rewrite (pipeline_opened _ _ _ src _ _ _ Hopen).
    rewrite (process_invalid _ _ _ _ _ _ _ Hb), <- app_assoc. reflexivity. }
  split; [split; [exact Hbad |] |].
  - intros Hp. apply bands_exist_false.
    destruct (bands_exist (ds_count src) red_band_num nir_band_num) eqn:Hok;
      [exfalso | reflexivity].
    rewrite (pipeline_opened _ _ _ src _ _ _ Hopen) in Hp.
    destruct (process_valid_reads lib input_path output_path src _ _
                (tr ++ [EvOpen input_path]) Hok) as [evs Hevs].
    destruct (process _ _ _ _ _ _ _) as [[e|[]] tr']; cbn in Hevs; subst tr';
      injection Hp as _ Htr;
      rewrite <- !app_assoc in Htr; apply app_inv_head in Htr; discriminate.
  - intros Hb. rewrite calculate_ndvi_returns, (Hbad Hb).
    rewrite <- app_assoc. reflexivity.
Qed.

Lemma C5_invalid_band_witness :
  ((6 < 1 ∨ 6 > 5 ∨ 2 < 1 ∨ 2 > 5)
   ↔ pipeline sample_lib "sample_multiband.tif" "ndvi_output.tif" 6 2 []
     = (inl (ValueError "Invalid band numbers. File has 5 bands, but Red band 6 and NIR band 2 were requested."),
        [EvOpen "sample_multiband.tif"; EvClose "sample_multiband.tif"]))
  ∧ ((6 < 1 ∨ 6 > 5 ∨ 2 < 1 ∨ 2 > 5) →
     calculate_ndvi sample_lib "sample_multiband.tif" "ndvi_output.tif" 6 2 []
     = (inr tt,
        [EvOpen "sample_multiband.tif"; EvClose "sample_multiband.tif";
         EvPrint "An error occurred: Invalid band numbers. File has 5 bands, but Red band 6 and NIR band 2 were requested."])).
Proof.
  apply (C5_invalid_band sample_lib "sample_multiband.tif" "ndvi_output.tif"
           sample_dataset 6 2 []).
  reflexivity.
Defined.

(** *** Shapes *)

(** C6, as stated, fails: the code has no shape check.  Bands of shapes
    1 x 1 and 2 x 2 are broadcast by line 36, no error is raised, and the
    output file is created and written. *)
Lemma C6_broadcast_counterexample :
  shape (astype_float32 (IntArray [[1000]]))
  ≠ shape (astype_float32 (IntArray [[3000; 3000]; [3000; 3000]]))
  ∧ calculate_ndvi (lib_with stretched_dataset) "in.tif" "out.tif" 1 2 []
    = (inr tt,
       [EvOpen "in.tif"; EvRead "in.tif" 1; EvRead "in.tif" 2;
        EvCreate "out.tif" (derive_out_meta (ds_meta stretched_dataset));
        EvWrite "out.tif"
          [[S754_finite false 8388608 (-24); S754_finite false 8388608 (-24)];
           [S754_finite false 8388608 (-24); S754_finite false 8388608 (-24)]] 1;
        EvClose "out.tif"; EvClose "in.tif";
        EvPrint "NDVI calculation complete. Output saved to: out.tif"]).
Proof. split; [discriminate | vm_compute; reflexivity]. Qed.

Lemma compute_index_not_broadcastable red nir :
  broadcastable (shape nir) (shape red) = false →
  compute_index red nir
  = inl (ValueError (broadcast_message (shape nir) (shape red))).
Proof.
  unfold broadcastable, compute_index, np_sub, elementwise. intros H.
  destruct (broadcast_dim (shape nir).1 (shape red).1) as [h|]; [| reflexivity].
  destruct (broadcast_dim (shape nir).2 (shape red).2) as [w|]; [| reflexivity].
  exfalso. rewrite !bool_decide_eq_true_2 in H by eauto. discriminate.
Qed.

(** C6, amended: when the shapes of the two bands cannot be broadcast
    against each other (on some axis the lengths differ and neither is 1),
    the subtraction of line 36 raises a [ValueError] naming the two shapes;
    the body stops there, after the two reads, and no output file has been
    created.  The error does not leave [calculate_ndvi], which prints it. *)
Theorem C6_unbroadcastable_shapes_stop_before_output lib input_path output_path
    src red_band_num nir_band_num red nir tr :
  rio_open lib input_path = inr src →
  bands_exist (ds_count src) red_band_num nir_band_num = true →
  ds_read src red_band_num = inr red → ds_read src nir_band_num = inr nir →
  broadcastable (shape (astype_float32 nir)) (shape (astype_float32 red)) = false →
  let message := broadcast_message (shape (astype_float32 nir))
                                   (shape (astype_float32 red)) in
  pipeline lib input_path output_path red_band_num nir_band_num tr
  = (inl (ValueError message),
     tr ++ [EvOpen input_path; EvRead input_path red_band_num;
            EvRead input_path nir_band_num; EvClose input_path])
  ∧ calculate_ndvi lib input_path output_path red_band_num nir_band_num tr
    = (inr tt,
       tr ++ [EvOpen input_path; EvRead input_path red_band_num;
              EvRead input_path nir_band_num; EvClose input_path;
              EvPrint ("An error occurred: " +:+ message)]).
Proof.
  intros Hopen Hok Hred Hnir Hshape message.
  assert (Hp : pipeline lib input_path output_path red_band_num nir_band_num tr
               = (inl (ValueError message),
                  tr ++ [EvOpen input_path; EvRead input_path red_band_num;
                         EvRead input_path nir_band_num; EvClose input_path])).
  { rewrite (pipeline_opened _ _ _ src _ _ _ Hopen).
    rewrite (process_valid _ _ _ _ _ _ red nir _ Hok Hred Hnir).
    rewrite (compute_index_not_broadcastable _ _ Hshape).
    unfold lift, mbind, M_bind, bind. rewrite <- !app_assoc. reflexivity. }
  split; [exact Hp |].
  rewrite calculate_ndvi_returns, Hp, <- app_assoc. reflexivity.
Qed.

Lemma C6_unbroadcastable_shapes_stop_before_output_witness :
  pipeline (lib_with mismatched_dataset) "in.tif" "out.tif" 1 2 []
  = (inl (ValueError "operands could not be broadcast together with shapes (1,3) (2,2) "),
     [EvOpen "in.tif"; EvRead "in.tif" 1; EvRead "in.tif" 2; EvClose "in.tif"])
  ∧ calculate_ndvi (lib_with mismatched_dataset) "in.tif" "out.tif" 1 2 []
    = (inr tt,
       [EvOpen "in.tif"; EvRead "in.tif" 1; EvRead "in.tif" 2; EvClose "in.tif";
        EvPrint "An error occurred: operands could not be broadcast together with shapes (1,3) (2,2) "]).
Proof.
  apply (C6_unbroadcastable_shapes_stop_before_output (lib_with mismatched_dataset)
           "in.tif" "out.tif" mismatched_dataset 1 2
           (IntArray [[1; 2]; [3; 4]]) (IntArray [[5; 6; 7]]) []);
    reflexivity.
Defined.

(** *** Output metadata (lines 49 to 58) *)

(** The update of lines 53 to 58 sets four keys and leaves every other
    key of the copy as it is in the source metadata. *)
Lemma derive_out_meta_lookup (meta : gmap string meta_value) (key : string) :
  derive_out_meta meta !! key
  = if decide (key = "nodata") then Some (MInt (-9999))
    else if decide (key = "dtype") then Some (MStr "float32")
    else if decide (key = "count") then Some (MInt 1)
    else if decide (key = "driver") then Some (MStr "GTiff")
    else meta !! key.
Proof.
  unfold derive_out_meta.
  repeat (case_decide; [subst; by simplify_map_eq |]).
  by simplify_map_eq.
Qed.

(** C7: the input is a GeoTIFF, whose metadata has [driver = "GTiff"].
    The output metadata then differs from the source metadata in [count],
    [dtype] and [nodata] only: these are [1], ["float32"] and [-9999];
    [width], [height], [crs] and [transform] are copied, and so is every
    other key, [driver] included. *)
Theorem C7_out_meta_of_a_geotiff (meta : gmap string meta_value) (key : string) :
  meta !! "driver" = Some (MStr "GTiff") →
  key ≠ "count" → key ≠ "dtype" → key ≠ "nodata" →
  derive_out_meta meta !! key = meta !! key
  ∧ derive_out_meta meta !! "width" = meta !! "width"
  ∧ derive_out_meta meta !! "height" = meta !! "height"
  ∧ derive_out_meta meta !! "crs" = meta !! "crs"
  ∧ derive_out_meta meta !! "transform" = meta !! "transform"
  ∧ derive_out_meta meta !! "count" = Some (MInt 1)
  ∧ derive_out_meta meta !! "dtype" = Some (MStr "float32")
  ∧ derive_out_meta meta !! "nodata" = Some (MInt (-9999)).
Proof.
  intros Hdriver H1 H2 H3.
  split; [| repeat split; rewrite derive_out_meta_lookup; reflexivity].
  rewrite derive_out_meta_lookup.
  rewrite !decide_False by assumption.
  case_decide; [subst key; symmetry; exact Hdriver | reflexivity].
Qed.

Lemma C7_out_meta_of_a_geotiff_witness :
  derive_out_meta sample_meta !! "driver" = sample_meta !! "driver"
  ∧ derive_out_meta sample_meta !! "width" = sample_meta !! "width"
  ∧ derive_out_meta sample_meta !! "height" = sample_meta !! "height"
  ∧ derive_out_meta sample_meta !! "crs" = sample_meta !! "crs"
  ∧ derive_out_meta sample_meta !! "transform" = sample_meta !! "transform"
  ∧ derive_out_meta sample_meta !! "count" = Some (MInt 1)
  ∧ derive_out_meta sample_meta !! "dtype" = Some (MStr "float32")
  ∧ derive_out_meta sample_meta !! "nodata" = Some (MInt (-9999)).
Proof.
  apply (C7_out_meta_of_a_geotiff sample_meta "driver");
    [reflexivity | discriminate | discriminate | discriminate].
Defined.

(** The hypothesis on the driver is used: the metadata of a source in
    another format, which the function is not written for, would come out
    with a fourth key changed. *)
Example derive_out_meta_of_a_jp2 :
  jp2_meta !! "driver" = Some (MStr "JP2OpenJPEG")
  ∧ derive_out_meta jp2_meta !! "driver" = Some (MStr "GTiff").
Proof. split; reflexivity. Qed.

(** *** Equal band numbers *)

(** C9: a band number between 1 and the band count, given for both bands,
    passes the check of line 22; the body reads that band twice, computes an
    array in which every value is a zero ([v == 0]), and goes on to write
    it. *)
Theorem C9_equal_band_numbers lib input_path output_path src band_num band tr :
  0 < band_num <= ds_count src →
  ds_read src band_num = inr band →
  rectangular (astype_float32 band) →
  bands_exist (ds_count src) band_num band_num = true
  ∧ ∃ ndvi,
      compute_index (astype_float32 band) (astype_float32 band) = inr ndvi
      ∧ shape ndvi = shape (astype_float32 band)
      ∧ (∀ r c v, pixel ndvi r c = Some v → F32.eqb v (F32.of_Z 0) = true)
      ∧ process lib input_path output_path src band_num band_num tr
        = write_output lib output_path src ndvi
            (tr ++ [EvRead input_path band_num; EvRead input_path band_num]).
Proof.
  intros Hrange Hread Hrect.
  assert (Hok : bands_exist (ds_count src) band_num band_num = true).
  { unfold bands_exist. rewrite !andb_true_iff, !Z.ltb_lt, !Z.leb_le. lia. }
  assert (Hs : same_shape (astype_float32 band) (astype_float32 band))
    by (repeat split; assumption).
  destruct (compute_index_defined _ _ Hs) as (ndvi & H & (_ & _ & Hshape) & _).
  split; [exact Hok |]. exists ndvi. repeat split; try assumption.
  - intros r c v Hv.
    destruct (compute_index_from _ _ ndvi r c v Hs H Hv) as (x & y & Hx & Hy & ->).
    assert (y = x) by congruence. subst y.
    rewrite eqb_zero_is_zero. apply ndvi_pixel_self.
  - rewrite (process_valid _ _ _ _ _ _ band band _ Hok Hread Hread), H.
    reflexivity.
Qed.

Lemma C9_equal_band_numbers_witness :
  bands_exist (ds_count sample_dataset) 2 2 = true
  ∧ ∃ ndvi,
      compute_index (astype_float32 (IntArray [[2000; 0]]))
                    (astype_float32 (IntArray [[2000; 0]])) = inr ndvi
      ∧ shape ndvi = shape (astype_float32 (IntArray [[2000; 0]]))
      ∧ (∀ r c v, pixel ndvi r c = Some v → F32.eqb v (F32.of_Z 0) = true)
      ∧ process sample_lib "sample_multiband.tif" "ndvi_output.tif"
          sample_dataset 2 2 []
        = write_output sample_lib "ndvi_output.tif" sample_dataset ndvi
            ([] ++ [EvRead "sample_multiband.tif" 2; EvRead "sample_multiband.tif" 2]).
Proof.
  apply (C9_equal_band_numbers sample_lib "sample_multiband.tif" "ndvi_output.tif"
           sample_dataset 2 (IntArray [[2000; 0]]) []).
  - cbn. lia.
  - reflexivity.
  - repeat constructor.
Defined.

(** *** Determinism and the floating-point error state *)

Lemma ufunc_call_inr st u a b c :
  ufunc_call st u a b = inr c → elementwise (apply_ufunc u) a b = inr c.
Proof.
  unfold ufunc_call. destruct (elementwise _ a b); [discriminate |].
  destruct (raised st u a b); [discriminate | exact id].
Qed.

(** Inside the block of line 35 only the handlers for overflow and
    underflow are asked. *)
Lemma raised_inside st u a b :
  raised (errstate [FpDivide; FpInvalid] st) u a b
  = match (if signalled st FpOver u a b then fp_handle st FpOver u else None) with
    | Some e => Some e
    | None => if signalled st FpUnder u a b then fp_handle st FpUnder u else None
    end.
Proof.
  unfold raised. cbn.
  destruct (signalled (errstate _ st) FpDivide u a b),
           (signalled (errstate _ st) FpInvalid u a b);
    unfold signalled, signals; cbn;
    repeat match goal with |- context [match ?x with _ => _ end] => destruct x end;
    reflexivity.
Qed.

Lemma ufunc_call_quiet st u a b :
  fp_handle st FpOver u = None → fp_handle st FpUnder u = None →
  ufunc_call (errstate [FpDivide; FpInvalid] st) u a b
  = elementwise (apply_ufunc u) a b.
Proof.
  intros Ho Hu. unfold ufunc_call. rewrite raised_inside, Ho, Hu.
  destruct (elementwise _ a b); [reflexivity |].
  destruct (signalled st FpOver u a b), (signalled st FpUnder u a b); reflexivity.
Qed.

(** A run that returns under some state returns what [compute_index]
    returns. *)
Lemma compute_index_in_inr st red nir ndvi :
  compute_index_in st red nir = inr ndvi → compute_index red nir = inr ndvi.
Proof.
  unfold compute_index_in, compute_index, np_sub, np_add, np_div.
  destruct (ufunc_call _ Subtract nir red) as [|num] eqn:Hs; [discriminate |].
  apply ufunc_call_inr in Hs. cbn in Hs. rewrite Hs.
  destruct (ufunc_call _ Add nir red) as [|den] eqn:Ha; [discriminate |].
  apply ufunc_call_inr in Ha. cbn in Ha. rewrite Ha.
  destruct (ufunc_call _ Divide num den) as [|q] eqn:Hd; [discriminate |].
  apply ufunc_call_inr in Hd. cbn in Hd. rewrite Hd.
  exact id.
Qed.

(** Under a state whose handlers for overflow and underflow go on, the
    run is [compute_index], whatever the state says about division by zero
    and invalid values. *)
Lemma compute_index_in_quiet st red nir :
  (∀ u, fp_handle st FpOver u = None ∧ fp_handle st FpUnder u = None) →
  compute_index_in st red nir = compute_index red nir.
Proof.
  intros Hq. unfold compute_index_in.
  rewrite (ufunc_call_quiet st Subtract) by apply Hq.
  rewrite (ufunc_call_quiet st Add) by apply Hq.
  unfold compute_index, np_sub, np_add, np_div. cbn.
  destruct (elementwise F32.sub nir red) as [|num]; [reflexivity |].
  destruct (elementwise F32.add nir red) as [|den]; [reflexivity |].
  rewrite (ufunc_call_quiet st Divide) by apply Hq.
  reflexivity.
Qed.

(** A run stops with an exception only where [compute_index] stops with
    it, the shapes being incompatible, or where a handler for overflow or
    underflow raised it. *)
Lemma compute_index_in_inl st red nir e :
  compute_index_in st red nir = inl e →
  compute_index red nir = inl e
  ∨ ∃ u, fp_handle st FpOver u = Some e ∨ fp_handle st FpUnder u = Some e.
Proof.
  assert (Hcall : ∀ u a b e',
    ufunc_call (errstate [FpDivide; FpInvalid] st) u a b = inl e' →
    elementwise (apply_ufunc u) a b = inl e'
    ∨ (∃ c, elementwise (apply_ufunc u) a b = inr c)
      ∧ (fp_handle st FpOver u = Some e' ∨ fp_handle st FpUnder u = Some e')).
  { intros u a b e'. unfold ufunc_call. rewrite raised_inside.
    destruct (elementwise _ a b) as [|c]; [intros [= ->]; by left |].
    intros H. right. split; [by eexists |].
    destruct (signalled st FpOver u a b), (signalled st FpUnder u a b);
      destruct (fp_handle st FpOver u) eqn:Ho, (fp_handle st FpUnder u) eqn:Hu;
      simplify_eq; auto. }
  unfold compute_index_in, compute_index, np_sub, np_add, np_div.
  destruct (ufunc_call _ Subtract nir red) as [e1|num] eqn:Hs.
  { intros [= ->]. destruct (Hcall _ _ _ _ Hs) as [H | [_ H]].
    - cbn in H. rewrite H. by left.
    - right. by exists Subtract. }
  apply ufunc_call_inr in Hs. cbn in Hs. rewrite Hs.
  destruct (ufunc_call _ Add nir red) as [e1|den] eqn:Ha.
  { intros [= ->]. destruct (Hcall _ _ _ _ Ha) as [H | [_ H]].
    - cbn in H. rewrite H. by left.
    - right. by exists Add. }
  apply ufunc_call_inr in Ha. cbn in Ha. rewrite Ha.
  destruct (ufunc_call _ Divide num den) as [e1|q] eqn:Hd; [| discriminate].
  intros [= ->]. destruct (Hcall _ _ _ _ Hd) as [H | [_ H]].
  - cbn in H. rewrite H. by left.
  - right. by exists Divide.
Qed.

(** C10, as stated, fails: the result of lines 35 to 44 depends on state
    that the arrays do not hold.  Line 35 overrides numpy's handling of
    division by zero and of invalid values, not that of overflow.  On the
    pixel [red = - 2^127], [nir = 1.5 * 2^127] the subtraction overflows: a
    run under numpy's state at start-up returns the array [[0]], a run
    after [np.seterr(all='raise')] raises [FloatingPointError] at the
    subtraction and returns no array. *)
Lemma C10_error_state_counterexample :
  compute_index_in default_state [[big_red]] [[big_nir]] = inr [[F32.of_Z 0]]
  ∧ compute_index_in raising_state [[big_red]] [[big_nir]]
    = inl (OtherException "FloatingPointError" "overflow encountered in subtract").
Proof. split; vm_compute; reflexivity. Qed.

(** C10, amended: two runs on the same two arrays that both return an
    array return the same array, the one [compute_index] gives; a run
    returns whenever numpy's handlers for overflow and underflow go on, as
    they do at start-up; and what the state says about division by zero and
    invalid values never matters. *)
Theorem C10_runs_that_return_agree (st1 st2 : fp_state)
    (red nir ndvi : list (list spec_float)) :
  compute_index_in st1 red nir = inr ndvi →
  compute_index red nir = inr ndvi
  ∧ (∀ ndvi2, compute_index_in st2 red nir = inr ndvi2 → ndvi2 = ndvi)
  ∧ ((∀ u, fp_handle st2 FpOver u = None ∧ fp_handle st2 FpUnder u = None) →
     compute_index_in st2 red nir = inr ndvi).
Proof.
  intros H1. apply compute_index_in_inr in H1.
  split; [exact H1 |]. split.
  - intros ndvi2 H2. apply compute_index_in_inr in H2. congruence.
  - intros Hq. rewrite (compute_index_in_quiet st2 red nir Hq). exact H1.
Qed.

Lemma C10_runs_that_return_agree_witness :
  compute_index sample_red sample_nir
  = inr [[S754_finite false 8388608 (-24); S754_zero false]]
  ∧ (∀ ndvi2, compute_index_in divide_raising_state sample_red sample_nir = inr ndvi2 →
       ndvi2 = [[S754_finite false 8388608 (-24); S754_zero false]])
  ∧ ((∀ u, fp_handle divide_raising_state FpOver u = None
           ∧ fp_handle divide_raising_state FpUnder u = None) →
     compute_index_in divide_raising_state sample_red sample_nir
     = inr [[S754_finite false 8388608 (-24); S754_zero false]]).
Proof.
  apply (C10_runs_that_return_agree default_state divide_raising_state
           sample_red sample_nir).
  vm_compute. reflexivity.
Defined.

(** * Further properties of [calculate_ndvi] *)

(** ** Runs of the pipeline *)

Lemma calculate_ndvi_handled lib input_path output_path red_band_num nir_band_num tr :
  calculate_ndvi lib input_path output_path red_band_num nir_band_num tr
  = (inr tt,
     match pipeline lib input_path output_path red_band_num nir_band_num tr with
     | (inr _, tr') => tr'
     | (inl e, tr') => tr' ++ handler_lines input_path e
     end).
Proof.
  rewrite calculate_ndvi_returns.
  destruct (pipeline _ _ _ _ _ _) as [[[]|[]] tr']; reflexivity.
Qed.

Lemma write_output_run lib output_path src ndvi tr :
  write_output lib output_path src ndvi tr
  = match rio_create lib output_path (derive_out_meta (ds_meta src)) with
    | Some e => (inl e, tr ++ [EvCreate output_path (derive_out_meta (ds_meta src))])
    | None =>
        (match rio_write lib output_path ndvi 1 with
         | Some e => inl e
         | None => inr tt
         end,
         tr ++ [EvCreate output_path (derive_out_meta (ds_meta src));
                EvWrite output_path ndvi 1; EvClose output_path])
    end.
Proof.
  unfold write_output, create_dataset, write_band, closing,
    mbind, M_bind, bind, emit, lift_status.
  destruct (rio_create lib _ _) as [e|]; [reflexivity |].
  destruct (rio_write lib _ _ _) as [e|]; rewrite <- !app_assoc; reflexivity.
Qed.

(** The ways the body of the [with] can end. *)
Lemma process_outcomes lib input_path output_path src red_band_num nir_band_num tr :
  (bands_exist (ds_count src) red_band_num nir_band_num = false
   ∧ process lib input_path output_path src red_band_num nir_band_num tr
     = (inl (ValueError (invalid_band_message (ds_count src) red_band_num nir_band_num)),
        tr))
  ∨ (bands_exist (ds_count src) red_band_num nir_band_num = true
     ∧ ((∃ e, ds_read src red_band_num = inl e
           ∧ process lib input_path output_path src red_band_num nir_band_num tr
             = (inl e, tr ++ [EvRead input_path red_band_num]))
        ∨ (∃ red e, ds_read src red_band_num = inr red
             ∧ ds_read src nir_band_num = inl e
             ∧ process lib input_path output_path src red_band_num nir_band_num tr
               = (inl e, tr ++ [EvRead input_path red_band_num;
                                EvRead input_path nir_band_num]))
        ∨ (∃ red nir e, ds_read src red_band_num = inr red
             ∧ ds_read src nir_band_num = inr nir
             ∧ compute_index (astype_float32 red) (astype_float32 nir) = inl e
             ∧ process lib input_path output_path src red_band_num nir_band_num tr
               = (inl e, tr ++ [EvRead input_path red_band_num;
                                EvRead input_path nir_band_num]))
        ∨ (∃ red nir ndvi, ds_read src red_band_num = inr red
             ∧ ds_read src nir_band_num = inr nir
             ∧ compute_index (astype_float32 red) (astype_float32 nir) = inr ndvi
             ∧ process lib input_path output_path src red_band_num nir_band_num tr
               = write_output lib output_path src ndvi
                   (tr ++ [EvRead input_path red_band_num;
                           EvRead input_path nir_band_num])))).
Proof.
  destruct (bands_exist (ds_count src) red_band_num nir_band_num) eqn:Hok.
  - right. split; [reflexivity |].
    destruct (ds_read src red_band_num) as [e|red] eqn:Hred.
    { left. exists e. split; [reflexivity |].
      unfold process. rewrite Hok. cbn [negb].
      unfold read_band, mbind, M_bind, bind, emit, lift. rewrite Hred. reflexivity. }
    destruct (ds_read src nir_band_num) as [e|nir] eqn:Hnir.
    { right; left. exists red, e. split; [reflexivity |]. split; [reflexivity |].
      unfold process. rewrite Hok. cbn [negb].
      unfold read_band, mbind, M_bind, bind, emit, lift.
      rewrite Hred, Hnir, <- app_assoc. reflexivity. }
    pose proof (process_valid lib input_path output_path src _ _ red nir tr
                  Hok Hred Hnir) as Hp.
    destruct (compute_index (astype_float32 red) (astype_float32 nir))
      as [e|ndvi] eqn:Hc.
    + right; right; left. exists red, nir, e.
      split; [reflexivity |]. split; [reflexivity |]. split; [exact Hc | exact Hp].
    + right; right; right. exists red, nir, ndvi.
      split; [reflexivity |]. split; [reflexivity |]. split; [exact Hc | exact Hp].
  - left. split; [reflexivity |]. apply process_invalid, Hok.
Qed.

(** X1.  Once the index is computed, the run goes on to create the
    destination with the derived metadata.  If the creation raises, nothing
    is written and only the input is closed; otherwise the index is written
    to band 1 and the destination is closed before the input, also when the
    write raises.  The run ends with the success line when nothing raised,
    and with the lines of the handler otherwise. *)
Theorem run_from_the_computed_index lib input_path output_path src
    red_band_num nir_band_num red nir ndvi tr :
  rio_open lib input_path = inr src →
  bands_exist (ds_count src) red_band_num nir_band_num = true →
  ds_read src red_band_num = inr red → ds_read src nir_band_num = inr nir →
  compute_index (astype_float32 red) (astype_float32 nir) = inr ndvi →
  calculate_ndvi lib input_path output_path red_band_num nir_band_num tr
  = (inr tt,
     tr ++ [EvOpen input_path; EvRead input_path red_band_num;
            EvRead input_path nir_band_num;
            EvCreate output_path (derive_out_meta (ds_meta src))]
        ++ match rio_create lib output_path (derive_out_meta (ds_meta src)) with
           | Some e => EvClose input_path :: handler_lines input_path e
           | None =>
               [EvWrite output_path ndvi 1; EvClose output_path; EvClose input_path]
               ++ match rio_write lib output_path ndvi 1 with
                  | Some e => handler_lines input_path e
                  | None => [success_line output_path]
                  end
           end).
Proof.
  intros Hopen Hok Hred Hnir Hc.
  rewrite calculate_ndvi_handled, (pipeline_opened _ _ _ src _ _ _ Hopen).
  rewrite (process_valid _ _ _ _ _ _ red nir _ Hok Hred Hnir), Hc.
  unfold lift, mbind, M_bind, bind. rewrite write_output_run.
  destruct (rio_create lib _ _) as [e|].
  - rewrite <- !app_assoc. reflexivity.
  - destruct (rio_write lib _ _ _) as [e|]; rewrite <- !app_assoc; reflexivity.
Qed.

Lemma run_from_the_computed_index_witness :
  calculate_ndvi sample_lib "sample_multiband.tif" "ndvi_output.tif" 1 3 []
  = (inr tt,
     [] ++ [EvOpen "sample_multiband.tif"; EvRead "sample_multiband.tif" 1;
            EvRead "sample_multiband.tif" 3;
            EvCreate "ndvi_output.tif" (derive_out_meta (ds_meta sample_dataset))]
        ++ match rio_create sample_lib "ndvi_output.tif"
                   (derive_out_meta (ds_meta sample_dataset)) with
           | Some e => EvClose "sample_multiband.tif"
                       :: handler_lines "sample_multiband.tif" e
           | None =>
               [EvWrite "ndvi_output.tif"
                  [[S754_finite false 8388608 (-24); S754_zero false]] 1;
                EvClose "ndvi_output.tif"; EvClose "sample_multiband.tif"]
               ++ match rio_write sample_lib "ndvi_output.tif"
                          [[S754_finite false 8388608 (-24); S754_zero false]] 1 with
                  | Some e => handler_lines "sample_multiband.tif" e
                  | None => [success_line "ndvi_output.tif"]
                  end
           end).
Proof.
  apply (run_from_the_computed_index sample_lib "sample_multiband.tif"
           "ndvi_output.tif" sample_dataset 1 3
           (IntArray [[1000; 0]]) (IntArray [[3000; 0]])
           [[S754_finite false 8388608 (-24); S754_zero false]] []);
    reflexivity.
Defined.

(** The shape of every run: the opening, events of the body that are not
    prints, and the closing lines; when the input was opened the body ends
    with its closing. *)
Lemma run_shape lib input_path output_path red_band_num nir_band_num tr :
  ∃ body,
    (calculate_ndvi lib input_path output_path red_band_num nir_band_num tr).2
    = tr ++ EvOpen input_path :: body
         ++ match (pipeline lib input_path output_path red_band_num nir_band_num tr).1 with
            | inr _ => [success_line output_path]
            | inl e => handler_lines input_path e
            end
    ∧ Forall (fun ev => ¬ is_print ev) body
    ∧ (∀ src, rio_open lib input_path = inr src →
         ∃ body', body = body' ++ [EvClose input_path]).
Proof.
  rewrite calculate_ndvi_handled.
  destruct (rio_open lib input_path) as [e|src] eqn:Hopen.
  { rewrite (pipeline_not_opened _ _ _ e _ _ _ Hopen). exists [].
    cbn [fst snd]. rewrite <- app_assoc. repeat split; [constructor | discriminate]. }
  rewrite (pipeline_opened _ _ _ src _ _ _ Hopen).
  assert (Hbody : ∀ evs, Forall (fun ev => ¬ is_print ev) evs →
            Forall (fun ev => ¬ is_print ev) (evs ++ [EvClose input_path])).
  { intros evs H. apply Forall_app. split; [exact H |].
    repeat constructor. intros [line Hl]; discriminate. }
  destruct (process_outcomes lib input_path output_path src red_band_num
              nir_band_num (tr ++ [EvOpen input_path]))
    as [[_ ->] | [_ [(e & _ & ->) | [(red & e & _ & _ & ->)
        | [(red & nir & e & _ & _ & _ & ->) | (red & nir & ndvi & _ & _ & _ & ->)]]]]].
  all: try rewrite write_output_run.
  all: try (destruct (rio_create lib _ _) as [e|];
            [| destruct (rio_write lib _ _ _) as [e|]]).
  all: cbn [fst snd].
  all: match goal with
       | |- ∃ body, ((_ ++ [EvOpen _]) ++ [EvClose _]) ++ _ = _ ∧ _ =>
           exists ([] ++ [EvClose input_path])
       | |- ∃ body, (((_ ++ [EvOpen _]) ++ ?evs) ++ [EvClose _]) ++ _ = _ ∧ _ =>
           exists (evs ++ [EvClose input_path])
       | |- ∃ body, ((((_ ++ [EvOpen _]) ++ ?evs1) ++ ?evs2) ++ [EvClose _]) ++ _
                    = _ ∧ _ =>
           exists ((evs1 ++ evs2) ++ [EvClose input_path])
       end.
  all: split; [rewrite <- ?app_assoc; reflexivity |].
  all: split; [| intros src0 _; eexists; reflexivity].
  all: apply Hbody; repeat constructor; intros [line H]; discriminate.
Qed.

Lemma handler_lines_are_prints input_path e ev :
  ev ∈ handler_lines input_path e → is_print ev.
Proof.
  destruct e; cbn; rewrite ?elem_of_cons, elem_of_nil;
    intros H; repeat destruct H as [H | H]; try contradiction;
    eexists; exact H.
Qed.

Lemma handler_lines_not_empty input_path e : handler_lines input_path e ≠ [].
Proof. destruct e; discriminate. Qed.

(** X2.  Once the input is open it is closed, whatever happens in between:
    the run consists of the opening, events of the body, the closing of the
    input, and then only printed lines, at least one. *)
Theorem input_is_closed_on_every_path lib input_path output_path src
    red_band_num nir_band_num tr :
  rio_open lib input_path = inr src →
  ∃ body lines,
    (calculate_ndvi lib input_path output_path red_band_num nir_band_num tr).2
    = tr ++ EvOpen input_path :: body ++ EvClose input_path :: lines
    ∧ lines ≠ [] ∧ Forall is_print lines
    ∧ Forall (fun ev => ¬ is_print ev) body.
Proof.
  intros Hopen.
  destruct (run_shape lib input_path output_path red_band_num nir_band_num tr)
    as (body & Htr & Hbody & Hclose).
  destruct (Hclose src Hopen) as [body' ->].
  apply Forall_app in Hbody as [Hbody' _].
  eexists body', _. split; [rewrite Htr, <- app_assoc; reflexivity |].
  destruct (pipeline _ _ _ _ _ _).1 as [e|[]].
  - repeat split; [apply handler_lines_not_empty | | exact Hbody'].
    apply Forall_forall. intros ev. apply handler_lines_are_prints.
  - repeat split; [discriminate | | exact Hbody'].
    repeat constructor. eexists; reflexivity.
Qed.

Lemma input_is_closed_on_every_path_witness :
  ∃ body lines,
    (calculate_ndvi sample_lib "sample_multiband.tif" "ndvi_output.tif" 6 2 []).2
    = [] ++ EvOpen "sample_multiband.tif" :: body
         ++ EvClose "sample_multiband.tif" :: lines
    ∧ lines ≠ [] ∧ Forall is_print lines
    ∧ Forall (fun ev => ¬ is_print ev) body.
Proof.
  apply (input_is_closed_on_every_path sample_lib "sample_multiband.tif"
           "ndvi_output.tif" sample_dataset 6 2 []).
  reflexivity.
Defined.

(** X3.  Nothing reaches the disk before the index exists.  Every
    destination the run creates is [output_path], with the metadata derived
    from the source, after both bands were read from valid band numbers and
    the index was computed; everything the run writes is that index, to
    band 1 of a destination whose creation succeeded. *)
Theorem output_only_after_the_index lib input_path output_path
    red_band_num nir_band_num tr evs :
  (calculate_ndvi lib input_path output_path red_band_num nir_band_num tr).2
  = tr ++ evs →
  (∀ path meta, EvCreate path meta ∈ evs →
     path = output_path
     ∧ ∃ src red nir ndvi,
         rio_open lib input_path = inr src
         ∧ bands_exist (ds_count src) red_band_num nir_band_num = true
         ∧ ds_read src red_band_num = inr red
         ∧ ds_read src nir_band_num = inr nir
         ∧ compute_index (astype_float32 red) (astype_float32 nir) = inr ndvi
         ∧ meta = derive_out_meta (ds_meta src))
  ∧ (∀ path a band, EvWrite path a band ∈ evs →
       path = output_path ∧ band = 1
       ∧ ∃ src red nir,
           rio_open lib input_path = inr src
           ∧ bands_exist (ds_count src) red_band_num nir_band_num = true
           ∧ ds_read src red_band_num = inr red
           ∧ ds_read src nir_band_num = inr nir
           ∧ compute_index (astype_float32 red) (astype_float32 nir) = inr a
           ∧ rio_create lib output_path (derive_out_meta (ds_meta src)) = None).
Proof.
  rewrite calculate_ndvi_handled.
  assert (Hpr : ∀ e ev, ev ∈ handler_lines input_path e →
                        (∃ p m, ev = EvCreate p m) ∨ (∃ p a b, ev = EvWrite p a b) →
                        False).
  { intros e ev [line ->]%handler_lines_are_prints [(? & ? & ?) | (? & ? & ? & ?)];
      discriminate. }
  destruct (rio_open lib input_path) as [e|src] eqn:Hopen.
  - rewrite (pipeline_not_opened _ _ _ e _ _ _ Hopen). cbn [snd].
    rewrite <- app_assoc. intros <-%app_inv_head.
    split; intros; repeat match goal with
      | H : _ ∈ _ ++ _ |- _ => apply elem_of_app in H as [H | H]
      | H : _ ∈ _ :: _ |- _ => apply elem_of_cons in H as [H | H]
      | H : _ ∈ [] |- _ => apply elem_of_nil in H; contradiction
      | H : _ ∈ handler_lines _ _ |- _ => destruct (Hpr _ _ H); eauto
      end; discriminate.
  - rewrite (pipeline_opened _ _ _ src _ _ _ Hopen).
    destruct (process_outcomes lib input_path output_path src red_band_num
                nir_band_num (tr ++ [EvOpen input_path]))
      as [[_ ->] | [Hok [(e & _ & ->) | [(red & e & _ & _ & ->)
          | [(red & nir & e & _ & _ & _ & ->)
             | (red & nir & ndvi & Hred & Hnir & Hc & ->)]]]]].
    5: { rewrite write_output_run.
         destruct (rio_create lib _ _) as [e|] eqn:Hcreate;
           [| destruct (rio_write lib _ _ _) as [e|]];
           cbn [snd]; rewrite <- !app_assoc; intros <-%app_inv_head;
           split; intros;
           repeat match goal with
           | H : _ ∈ _ ++ _ |- _ => apply elem_of_app in H as [H | H]
           | H : _ ∈ _ :: _ |- _ => apply elem_of_cons in H as [H | H]
           | H : _ ∈ [] |- _ => apply elem_of_nil in H; contradiction
           | H : _ ∈ handler_lines _ _ |- _ => destruct (Hpr _ _ H); eauto
           end; try discriminate; simplify_eq;
           repeat esplit; eassumption. }
    all: cbn [snd]; rewrite <- !app_assoc; intros <-%app_inv_head;
      split; intros;
      repeat match goal with
      | H : _ ∈ _ ++ _ |- _ => apply elem_of_app in H as [H | H]
      | H : _ ∈ _ :: _ |- _ => apply elem_of_cons in H as [H | H]
      | H : _ ∈ [] |- _ => apply elem_of_nil in H; contradiction
      | H : _ ∈ handler_lines _ _ |- _ => destruct (Hpr _ _ H); eauto
      end; discriminate.
Qed.

Lemma output_only_after_the_index_witness :
  (∀ path meta, EvCreate path meta ∈ sample_run →
     path = "ndvi_output.tif"
     ∧ ∃ src red nir ndvi,
         rio_open sample_lib "sample_multiband.tif" = inr src
         ∧ bands_exist (ds_count src) 1 3 = true
         ∧ ds_read src 1 = inr red
         ∧ ds_read src 3 = inr nir
         ∧ compute_index (astype_float32 red) (astype_float32 nir) = inr ndvi
         ∧ meta = derive_out_meta (ds_meta src))
  ∧ (∀ path a band, EvWrite path a band ∈ sample_run →
       path = "ndvi_output.tif" ∧ band = 1
       ∧ ∃ src red nir,
           rio_open sample_lib "sample_multiband.tif" = inr src
           ∧ bands_exist (ds_count src) 1 3 = true
           ∧ ds_read src 1 = inr red
           ∧ ds_read src 3 = inr nir
           ∧ compute_index (astype_float32 red) (astype_float32 nir) = inr a
           ∧ rio_create sample_lib "ndvi_output.tif"
               (derive_out_meta (ds_meta src)) = None).
Proof.
  apply (output_only_after_the_index sample_lib "sample_multiband.tif"
           "ndvi_output.tif" 1 3 [] sample_run).
  reflexivity.
Defined.

(** X4.  When the input cannot be opened the run does nothing but print:
    no band is read and nothing is created or written.  A
    [FileNotFoundError] gives the two lines that name the input path, any
    other exception the line with its text. *)
Theorem unopened_input_only_prints lib input_path output_path
    red_band_num nir_band_num e tr :
  rio_open lib input_path = inl e →
  calculate_ndvi lib input_path output_path red_band_num nir_band_num tr
  = (inr tt,
     tr ++ EvOpen input_path
        :: match e with
           | FileNotFoundError _ =>
               [EvPrint ("Error: Input file not found at '" +:+ input_path +:+ "'");
                EvPrint "Please run 'create_mock_geotiff.py' first to generate the sample file."]
           | _ => [EvPrint ("An error occurred: " +:+ str e)]
           end).
Proof.
  intros Hopen.
  rewrite calculate_ndvi_handled, (pipeline_not_opened _ _ _ e _ _ _ Hopen).
  rewrite <- app_assoc. destruct e; reflexivity.
Qed.

Lemma unopened_input_only_prints_witness :
  calculate_ndvi sample_lib "missing.tif" "ndvi_output.tif" 1 2 []
  = (inr tt,
     [] ++ EvOpen "missing.tif"
        :: [EvPrint ("An error occurred: "
                       +:+ str (OtherException "RasterioIOError"
                                  "missing.tif: No such file or directory"))]).
Proof.
  apply (unopened_input_only_prints sample_lib "missing.tif" "ndvi_output.tif" 1 2
           (OtherException "RasterioIOError" "missing.tif: No such file or directory") []).
  reflexivity.
Defined.

Lemma success_line_not_in_handler_lines input_path output_path e :
  success_line output_path ∉ handler_lines input_path e.
Proof.
  unfold success_line.
  destruct e; cbn; rewrite ?elem_of_cons, elem_of_nil;
    intros H; repeat destruct H as [H | H]; try contradiction; discriminate.
Qed.

(** X5.  The line that announces the output is printed exactly when no step
    of the run raised; a run that failed never prints it. *)
Theorem success_line_iff_nothing_raised lib input_path output_path
    red_band_num nir_band_num tr evs :
  (calculate_ndvi lib input_path output_path red_band_num nir_band_num tr).2
  = tr ++ evs →
  (EvPrint ("NDVI calculation complete. Output saved to: " +:+ output_path) ∈ evs
   ↔ (pipeline lib input_path output_path red_band_num nir_band_num tr).1 = inr tt).
Proof.
  destruct (run_shape lib input_path output_path red_band_num nir_band_num tr)
    as (body & -> & Hbody & _).
  intros <-%app_inv_head.
  change (EvPrint _) with (success_line output_path).
  rewrite elem_of_cons, elem_of_app. split.
  - intros [H | [H | H]].
    + discriminate.
    + rewrite Forall_forall in Hbody. destruct (Hbody _ H).
      eexists; reflexivity.
    + destruct (pipeline _ _ _ _ _ _).1 as [e|[]]; [| reflexivity].
      destruct (success_line_not_in_handler_lines _ _ _ H).
  - intros ->. right; right. apply elem_of_cons. left. reflexivity.
Qed.

Lemma success_line_iff_nothing_raised_witness :
  EvPrint ("NDVI calculation complete. Output saved to: " +:+ "ndvi_output.tif")
    ∈ sample_run
  ↔ (pipeline sample_lib "sample_multiband.tif" "ndvi_output.tif" 1 3 []).1 = inr tt.
Proof.
  apply (success_line_iff_nothing_raised sample_lib "sample_multiband.tif"
           "ndvi_output.tif" 1 3 [] sample_run).
  reflexivity.
Defined.

(** * Further properties of the index *)

(** ** Normal numbers *)

Lemma Zdigits2_ge m : 0 < m → 2 ^ (Zdigits2 m - 1) <= m.
Proof.
  intros Hm. rewrite Zdigits2_log2 by lia.
  replace (Z.log2 m + 1 - 1) with (Z.log2 m) by lia.
  apply Z.log2_spec. lia.
Qed.

Lemma Zdigits2_eq m k : 2 ^ (k - 1) <= m < 2 ^ k → 1 <= k → Zdigits2 m = k.
Proof.
  intros [Hlo Hhi] Hk.
  assert (0 < m) by (pose proof (Z.pow_pos_nonneg 2 (k - 1)); lia).
  rewrite Zdigits2_log2 by lia.
  assert (Z.log2 m = k - 1); [| lia].
  apply Z.log2_unique; [lia |]. replace (Z.succ (k - 1)) with k by lia. lia.
Qed.

Lemma Zdigits2_ge_24 m : 2 ^ 23 <= m → 24 <= Zdigits2 m.
Proof.
  intros Hm. destruct (Z_lt_le_dec (Zdigits2 m) 24) as [Hlt | ?]; [| assumption].
  destruct (Zdigits2_bound m ltac:(lia)) as [Hd Hb].
  assert (2 ^ Zdigits2 m <= 2 ^ 23) by (apply Z.pow_le_mono_r; lia). lia.
Qed.

(** The mantissa after an alignment step is the mantissa before, divided by
    the power of two that the exponent went up by. *)
Lemma shr_fexp_m m e l :
  0 <= m →
  let r := shr_fexp F32.prec F32.emax m e l in
  shr_m r.1 = m / 2 ^ (r.2 - e) ∧ e <= r.2.
Proof.
  intros Hm. unfold shr_fexp, shr.
  destruct (fexp F32.prec F32.emax (Zdigits2 m + e) - e) as [|n|n] eqn:Hn;
    cbn [fst snd]; rewrite ?shr_m_of_loc.
  - rewrite Z.sub_diag, Z.div_1_r. lia.
  - rewrite iter_shr_1_m by (rewrite shr_m_of_loc; lia). rewrite shr_m_of_loc.
    replace (e + Z.pos n - e) with (Z.pos n) by lia. lia.
  - rewrite Z.sub_diag, Z.div_1_r. lia.
Qed.

(** A mantissa of at least 24 bits keeps 24 of them. *)
Lemma shr_fexp_normal m e l :
  2 ^ 23 <= m → -149 <= e →
  let r := shr_fexp F32.prec F32.emax m e l in
  2 ^ 23 <= shr_m r.1 < 2 ^ 24 ∧ r.2 = Zdigits2 m + e - 24.
Proof.
  intros Hm He.
  assert (Hm0 : 0 <= m) by lia.
  pose proof (shr_fexp_bounds m e l Hm0) as Hb.
  pose proof (shr_fexp_m m e l Hm0) as Hf.
  cbn zeta in *. destruct (shr_fexp F32.prec F32.emax m e l) as [mrs e1].
  cbn [fst snd] in *. destruct Hb as ([_ Hhi] & He1 & _). destruct Hf as [Hdiv _].
  rewrite fexp_eq in He1.
  pose proof (Zdigits2_ge_24 m Hm) as Hd.
  pose proof (Zdigits2_ge m ltac:(lia)) as Hlo.
  assert (He1' : e1 = Zdigits2 m + e - 24) by lia.
  split; [split; [| exact Hhi] | exact He1'].
  rewrite Hdiv. replace (e1 - e) with (Zdigits2 m - 24) by lia.
  apply Z.div_le_lower_bound; [apply Z.pow_pos_nonneg; lia |].
  rewrite <- Z.pow_add_r by lia.
  replace (Zdigits2 m - 24 + 23) with (Zdigits2 m - 1) by lia. exact Hlo.
Qed.

(** Rounding a mantissa of at least 24 bits above the subnormal range gives
    a normal number, or overflows. *)
Lemma binary_round_aux_normal s m e l D :
  2 ^ 23 <= m < 2 ^ D → -149 <= e → D + e - 24 + 1 <= 104 →
  normal e (D + e - 24 + 1) s (binary_round_aux F32.prec F32.emax s m e l).
Proof.
  intros [Hlo Hhi] He Hmax. unfold binary_round_aux.
  assert (HD : 24 <= D).
  { destruct (Z_lt_le_dec D 24); [| assumption].
    assert (2 ^ D <= 2 ^ 23); [| lia].
    destruct (Z_lt_le_dec D 0).
    - rewrite Z.pow_neg_r by lia. lia.
    - apply Z.pow_le_mono_r; lia. }
  pose proof (shr_fexp_normal m e l Hlo He) as H1. cbn zeta in H1.
  destruct (shr_fexp F32.prec F32.emax m e l) as [mrs' e']. cbn [fst snd] in H1.
  destruct H1 as [[Hm1 Hm1'] He'].
  assert (Hd : 24 <= Zdigits2 m <= D)
    by (split; [apply Zdigits2_ge_24; lia | apply Zdigits2_le; lia]).
  pose proof (round_nearest_even_bounds (shr_m mrs') (loc_of_shr_record mrs')) as Hr.
  set (m1 := round_nearest_even _ _) in *.
  assert (Hm1lo : 2 ^ 23 <= m1) by lia.
  pose proof (shr_fexp_normal m1 e' loc_Exact Hm1lo ltac:(lia)) as H2. cbn zeta in H2.
  destruct (shr_fexp F32.prec F32.emax m1 e' loc_Exact) as [mrs'' e''].
  cbn [fst snd] in H2. destruct H2 as [[Hm2 Hm2'] He''].
  assert (Hd1 : 24 <= Zdigits2 m1 <= 25)
    by (split; [apply Zdigits2_ge_24; lia | apply Zdigits2_le; lia]).
  destruct (shr_m mrs'') as [|p|p]; [lia | | lia].
  replace (e'' <=? F32.emax - F32.prec) with true
    by (symmetry; apply Z.leb_le; unfold F32.emax, F32.prec; lia).
  cbn. repeat split; lia.
Qed.

(** A number that is already normal is returned as it is. *)
Lemma binary_round_aux_canonical s m e :
  2 ^ 23 <= Z.pos m < 2 ^ 24 → -149 <= e <= 104 →
  binary_round_aux F32.prec F32.emax s (Z.pos m) e loc_Exact = S754_finite s m e.
Proof.
  intros Hm He.
  assert (Hd : Zdigits2 (Z.pos m) = 24) by (apply Zdigits2_eq; [exact Hm | lia]).
  assert (Hshr : shr_fexp F32.prec F32.emax (Z.pos m) e loc_Exact
                 = ({| shr_m := Z.pos m; shr_r := false; shr_s := false |}, e)).
  { unfold shr_fexp. rewrite Hd, fexp_eq.
    replace (Z.max (24 + e - 24) (-149) - e) with 0 by lia. reflexivity. }
  unfold binary_round_aux. rewrite Hshr. cbn [shr_m loc_of_shr_record round_nearest_even].
  rewrite Hshr. cbn [shr_m].
  replace (e <=? F32.emax - F32.prec) with true
    by (symmetry; apply Z.leb_le; unfold F32.emax, F32.prec; lia).
  reflexivity.
Qed.

Lemma pow2_scale_bounds m d k :
  1 <= d → 0 <= k → 2 ^ (d - 1) <= m < 2 ^ d →
  2 ^ (d - 1 + k) <= m * 2 ^ k < 2 ^ (d + k).
Proof.
  intros Hd Hk [Hlo Hhi]. rewrite !Z.pow_add_r by lia.
  assert (0 < 2 ^ k) by (apply Z.pow_pos_nonneg; lia). nia.
Qed.

Lemma binary_round_normal s m e D :
  Z.pos m < 2 ^ D → -126 <= e → D + e - 23 <= 104 →
  normal (e - 23) (D + e - 23) s (binary_round F32.prec F32.emax s m e).
Proof.
  intros Hm He Hmax. unfold binary_round.
  pose proof (shl_align_spec m e (fexp F32.prec F32.emax (Z.pos (digits2_pos m) + e)))
    as [Hez Hmz].
  destruct (shl_align m e _) as [mz ez]. cbn [fst snd] in Hez, Hmz.
  rewrite fexp_eq in Hez, Hmz. rewrite <- Hez in Hmz.
  change (Z.pos (digits2_pos m)) with (Zdigits2 (Z.pos m)) in *.
  assert (HD0 : 0 <= D).
  { destruct (Z_lt_le_dec D 0); [| assumption].
    rewrite Z.pow_neg_r in Hm by lia. lia. }
  pose proof (Zdigits2_pos (Z.pos m) ltac:(lia)) as Hd1.
  pose proof (Zdigits2_le (Z.pos m) D ltac:(lia) HD0 Hm) as HdD.
  pose proof (Zdigits2_ge (Z.pos m) ltac:(lia)) as Hlo.
  destruct (Zdigits2_bound (Z.pos m) ltac:(lia)) as [_ Hhi].
  set (d := Zdigits2 (Z.pos m)) in *.
  destruct (Z_lt_le_dec d 24) as [Hsmall | Hbig].
  - (* the mantissa is shifted up to 24 bits *)
    assert (Hez' : ez = d + e - 24) by lia.
    pose proof (pow2_scale_bounds (Z.pos m) d (24 - d) Hd1 ltac:(lia) (conj Hlo Hhi))
      as Hb.
    replace (d - 1 + (24 - d)) with 23 in Hb by lia.
    replace (d + (24 - d)) with 24 in Hb by lia.
    replace (e - ez) with (24 - d) in Hmz by lia. rewrite <- Hmz in Hb.
    rewrite (binary_round_aux_canonical s mz ez Hb ltac:(lia)).
    cbn. repeat split; lia.
  - (* the mantissa has 24 bits or more and is rounded *)
    assert (Hez' : ez = e) by lia.
    rewrite Hez', Z.sub_diag, Z.mul_1_r in Hmz. rewrite Hmz, Hez'.
    assert (2 ^ (d - 1) >= 2 ^ 23)
      by (apply Z.le_ge, Z.pow_le_mono_r; lia).
    pose proof (binary_round_aux_normal s (Z.pos m) e loc_Exact D
                  ltac:(lia) ltac:(lia) ltac:(lia)) as Hn.
    unfold normal in *.
    destruct (binary_round_aux _ _ _ _ _ _); try contradiction.
    destruct Hn as (-> & Hm0 & He0).
    split; [reflexivity |]. split; [exact Hm0 |]. clear - He0. lia.
Qed.

(** An integer below [2 ^ 24] is represented exactly: the mantissa is the
    integer shifted up to 24 bits. *)
Lemma of_Z_exact z :
  0 < z < 2 ^ 24 →
  ∃ m e, F32.of_Z z = S754_finite false m e
         ∧ 2 ^ 23 <= Z.pos m < 2 ^ 24 ∧ -23 <= e <= 0
         ∧ Z.pos m = z * 2 ^ (- e).
Proof.
  intros [Hz0 Hz]. destruct z as [|p|p]; try lia.
  unfold F32.of_Z, F32.round, binary_normalize, binary_round.
  pose proof (shl_align_spec p 0 (fexp F32.prec F32.emax (Z.pos (digits2_pos p) + 0)))
    as [Hez Hmz].
  destruct (shl_align p 0 _) as [mz ez]. cbn [fst snd] in Hez, Hmz.
  rewrite fexp_eq in Hez, Hmz. rewrite <- Hez in Hmz.
  change (Z.pos (digits2_pos p)) with (Zdigits2 (Z.pos p)) in *.
  pose proof (Zdigits2_pos (Z.pos p) ltac:(lia)) as Hd1.
  pose proof (Zdigits2_le (Z.pos p) 24 ltac:(lia) ltac:(lia) Hz) as Hd24.
  pose proof (Zdigits2_ge (Z.pos p) ltac:(lia)) as Hlo.
  destruct (Zdigits2_bound (Z.pos p) ltac:(lia)) as [_ Hhi].
  set (d := Zdigits2 (Z.pos p)) in *.
  assert (Hez' : ez = d - 24) by lia.
  pose proof (pow2_scale_bounds (Z.pos p) d (24 - d) Hd1 ltac:(lia) (conj Hlo Hhi))
    as Hb.
  replace (d - 1 + (24 - d)) with 23 in Hb by lia.
  replace (d + (24 - d)) with 24 in Hb by lia.
  replace (0 - ez) with (24 - d) in Hmz by lia. rewrite <- Hmz in Hb.
  exists mz, ez.
  rewrite (binary_round_aux_canonical false mz ez Hb ltac:(lia)).
  repeat split; try lia. rewrite Hmz. f_equal. f_equal. lia.
Qed.

Lemma normal_weaken lo hi lo' hi' s x :
  normal lo hi s x → lo' <= lo → hi <= hi' → normal lo' hi' s x.
Proof.
  destruct x; cbn [normal]; try tauto.
  intros (-> & Hm & He) ? ?. split; [reflexivity |]. split; [exact Hm | lia].
Qed.

Lemma of_Z_normal z : 0 < z < 2 ^ 24 → normal (-23) 0 false (F32.of_Z z).
Proof.
  intros Hz. destruct (of_Z_exact z Hz) as (m & e & -> & Hm & He & _).
  cbn [normal]. split; [reflexivity |]. split; [exact Hm | lia].
Qed.

(** The mantissa of an exactly represented integer, aligned to a lower
    exponent, is the integer scaled by that exponent. *)
Lemma aligned_value m e ez z :
  Z.pos m = z * 2 ^ (- e) → ez <= e <= 0 →
  Z.pos (shl_align m e ez).1 = z * 2 ^ (- ez).
Proof.
  intros Hm He. destruct (shl_align_spec m e ez) as [_ ->].
  replace (Z.min e ez) with ez by lia.
  rewrite Hm, <- Z.mul_assoc, <- Z.pow_add_r by lia. f_equal. f_equal. lia.
Qed.

(** The difference [b - a] of two integers [0 <= a < b < 2 ^ 24], computed
    on their binary32 values, is a positive normal number; so is the sum of
    two such integers that are not both zero. *)
Lemma sub_of_Z_positive a b :
  0 <= a < b → b < 2 ^ 24 →
  normal (-46) 24 false (F32.sub (F32.of_Z b) (F32.of_Z a)).
Proof.
  intros Ha Hb.
  destruct (of_Z_exact b ltac:(lia)) as (mb & eb & Hfb & Hmb & Heb & Hvb).
  destruct (Z.eq_dec a 0) as [-> | Hne].
  { rewrite Hfb. change (F32.of_Z 0) with (S754_zero false).
    cbn [F32.sub SFsub normal]. split; [reflexivity |]. split; [exact Hmb | lia]. }
  destruct (of_Z_exact a ltac:(lia)) as (ma & ea & Hfa & Hma & Hea & Hva).
  rewrite Hfa, Hfb. unfold F32.sub, SFsub. cbn [cond_Zopp].
  rewrite (aligned_value mb eb (Z.min eb ea) b Hvb ltac:(lia)).
  rewrite (aligned_value ma ea (Z.min eb ea) a Hva ltac:(lia)).
  set (ez := Z.min eb ea) in *.
  assert (Hez : -23 <= ez <= 0) by lia.
  assert (Hpow : 0 < 2 ^ (- ez) <= 2 ^ 23)
    by (split; [apply Z.pow_pos_nonneg; lia | apply Z.pow_le_mono_r; lia]).
  assert (Hv : 0 < b * 2 ^ (- ez) - a * 2 ^ (- ez) < 2 ^ 47).
  { change (2 ^ 47) with (2 ^ 24 * 2 ^ 23). nia. }
  destruct (b * 2 ^ (- ez) - a * 2 ^ (- ez)) as [|p|p]; try lia.
  cbn [binary_normalize].
  eapply normal_weaken;
    [apply (binary_round_normal false p ez 47); [apply Hv | lia | lia] | lia | lia].
Qed.

Lemma add_of_Z_positive a b :
  0 <= a < 2 ^ 24 → 0 <= b < 2 ^ 24 → 0 < a + b →
  normal (-46) 25 false (F32.add (F32.of_Z b) (F32.of_Z a)).
Proof.
  intros Ha Hb Hab.
  destruct (Z.eq_dec a 0) as [-> | Hnea].
  { destruct (of_Z_exact b ltac:(lia)) as (mb & eb & -> & Hmb & Heb & _).
    change (F32.of_Z 0) with (S754_zero false).
    cbn [F32.add SFadd normal]. split; [reflexivity |]. split; [exact Hmb | lia]. }
  destruct (of_Z_exact a ltac:(lia)) as (ma & ea & Hfa & Hma & Hea & Hva).
  destruct (Z.eq_dec b 0) as [-> | Hneb].
  { rewrite Hfa. change (F32.of_Z 0) with (S754_zero false).
    cbn [F32.add SFadd normal]. split; [reflexivity |]. split; [exact Hma | lia]. }
  destruct (of_Z_exact b ltac:(lia)) as (mb & eb & Hfb & Hmb & Heb & Hvb).
  rewrite Hfa, Hfb. unfold F32.add, SFadd. cbn [cond_Zopp].
  rewrite (aligned_value mb eb (Z.min eb ea) b Hvb ltac:(lia)).
  rewrite (aligned_value ma ea (Z.min eb ea) a Hva ltac:(lia)).
  set (ez := Z.min eb ea) in *.
  assert (Hez : -23 <= ez <= 0) by lia.
  assert (Hpow : 0 < 2 ^ (- ez) <= 2 ^ 23)
    by (split; [apply Z.pow_pos_nonneg; lia | apply Z.pow_le_mono_r; lia]).
  assert (Hv : 0 < b * 2 ^ (- ez) + a * 2 ^ (- ez) < 2 ^ 48).
  { change (2 ^ 48) with (2 * (2 ^ 24 * 2 ^ 23)). nia. }
  destruct (b * 2 ^ (- ez) + a * 2 ^ (- ez)) as [|p|p]; try lia.
  cbn [binary_normalize].
  eapply normal_weaken;
    [apply (binary_round_normal false p ez 48); [apply Hv | lia | lia] | lia | lia].
Qed.

(** The quotient of two positive normal numbers is a positive normal
    number, as long as the exponents are far from the ends of the range. *)
Lemma div_normal x y :
  normal (-46) 25 false x → normal (-46) 25 false y →
  normal (-95) 72 false (F32.div x y).
Proof.
  destruct x as [| | |sx mx ex], y as [| | |sy my ey]; cbn [normal]; try tauto.
  intros (-> & Hmx & Hex) (-> & Hmy & Hey).
  unfold F32.div, SFdiv, SFdiv_core_binary.
  rewrite (Zdigits2_eq (Z.pos mx) 24 Hmx ltac:(lia)).
  rewrite (Zdigits2_eq (Z.pos my) 24 Hmy ltac:(lia)).
  rewrite fexp_eq.
  replace (Z.min (Z.max (24 + ex - (24 + ey) - 24) (-149)) (ex - ey))
    with (ex - ey - 24) by lia.
  replace (ex - ey - (ex - ey - 24)) with 24 by lia. cbv iota.
  rewrite Z.shiftl_mul_pow2 by lia.
  pose proof (Z_div_mod (Z.pos mx * 2 ^ 24) (Z.pos my) ltac:(lia)) as Hdiv.
  destruct (Z.div_eucl (Z.pos mx * 2 ^ 24) (Z.pos my)) as [q r].
  assert (Hq : 2 ^ 23 <= q < 2 ^ 48).
  { change (2 ^ 48) with (2 ^ 24 * 2 ^ 24). nia. }
  eapply normal_weaken;
    [apply (binary_round_aux_normal false q (ex - ey - 24)
              (new_location (Z.pos my) r) 48 Hq); lia | lia | lia].
Qed.

(** The clip keeps a positive number positive. *)
Lemma clip_positive lo hi x :
  normal lo hi false x →
  F32.ltb (F32.of_Z 0) (clip (F32.of_Z (-1)) (F32.of_Z 1) x) = true.
Proof.
  destruct x as [| | |s m e]; cbn [normal]; try tauto. intros (-> & _ & _).
  unfold clip, npy_max, npy_min.
  change (F32.isnan (S754_finite false m e)) with false.
  change (F32.ltb (F32.of_Z (-1)) (S754_finite false m e)) with true.
  cbv iota. change (F32.isnan (S754_finite false m e)) with false. cbv iota.
  destruct (F32.ltb (S754_finite false m e) (F32.of_Z 1)); reflexivity.
Qed.

Lemma normal_is_finite lo hi s x : normal lo hi s x → F32.is_finite x = true.
Proof. destruct x; cbn; tauto. Qed.

(** More near-infrared than red gives an index above zero. *)
Lemma ndvi_pixel_positive x y :
  0 <= x < y → y < 2 ^ 24 →
  F32.ltb (F32.of_Z 0) (ndvi_pixel (F32.of_Z x) (F32.of_Z y)) = true.
Proof.
  intros Hx Hy.
  pose proof (div_normal _ _
                (normal_weaken _ _ (-46) 25 _ _
                   (sub_of_Z_positive x y Hx Hy) ltac:(lia) ltac:(lia))
                (add_of_Z_positive x y ltac:(lia) ltac:(lia) ltac:(lia))) as Hq.
  fold (ratio (F32.of_Z x) (F32.of_Z y)) in Hq.
  rewrite (ndvi_pixel_finite _ _ (normal_is_finite _ _ _ _ Hq)).
  apply (clip_positive _ _ _ Hq).
Qed.

Lemma negative_of_opposite v w :
  F32.ltb (F32.of_Z 0) w = true → F32.eqb v (F32.opp w) = true →
  F32.ltb v (F32.of_Z 0) = true.
Proof.
  change (F32.of_Z 0) with (S754_zero false).
  destruct w as [[]|[]| |[] mw ew]; try discriminate;
    destruct v as [[]|[]| |[] mv ev]; try discriminate; reflexivity.
Qed.

(** ** The sign of the index *)

(** X6.  For two bands of one shape whose samples at a pixel are integers
    [0 <= red, nir < 2 ^ 24] (8- and 16-bit unsigned data in particular),
    the index at that pixel is above zero when [nir > red], below zero when
    [nir < red], and zero when they are equal. *)
Theorem index_sign_of_integer_samples red nir r c x y :
  same_shape red nir →
  pixel red r c = Some (F32.of_Z x) → pixel nir r c = Some (F32.of_Z y) →
  0 <= x < 2 ^ 24 → 0 <= y < 2 ^ 24 →
  ∃ ndvi v, compute_index red nir = inr ndvi
    ∧ pixel ndvi r c = Some v
    ∧ (x < y → F32.ltb (F32.of_Z 0) v = true)
    ∧ (y < x → F32.ltb v (F32.of_Z 0) = true)
    ∧ (x = y → F32.eqb v (F32.of_Z 0) = true).
Proof.
  intros Hs Hx Hy Hxr Hyr.
  destruct (compute_index_at red nir r c _ _ Hs Hx Hy) as (ndvi & H & Hv).
  exists ndvi, (ndvi_pixel (F32.of_Z x) (F32.of_Z y)).
  split; [exact H |]. split; [exact Hv |]. repeat split.
  - intros Hlt. apply ndvi_pixel_positive; lia.
  - intros Hlt.
    apply (negative_of_opposite _ (ndvi_pixel (F32.of_Z y) (F32.of_Z x))).
    + apply ndvi_pixel_positive; lia.
    + apply ndvi_pixel_swap.
  - intros ->. rewrite eqb_zero_is_zero. apply ndvi_pixel_self.
Qed.

Lemma index_sign_of_integer_samples_witness :
  ∃ ndvi v, compute_index sample_red sample_nir = inr ndvi
    ∧ pixel ndvi 0 0 = Some v
    ∧ (1000 < 3000 → F32.ltb (F32.of_Z 0) v = true)
    ∧ (3000 < 1000 → F32.ltb v (F32.of_Z 0) = true)
    ∧ (1000 = 3000 → F32.eqb v (F32.of_Z 0) = true).
Proof.
  apply (index_sign_of_integer_samples sample_red sample_nir 0 0 1000 3000).
  - exact same_shape_samples.
  - reflexivity.
  - reflexivity.
  - cbn; lia.
  - cbn; lia.
Defined.

(** ** Samples that are not finite *)

Lemma ratio_of_non_finite x y :
  F32.is_finite x = false ∨ F32.is_finite y = false → ratio x y = S754_nan.
Proof.
  unfold ratio.
  destruct x as [[]|[]| |sx mx ex], y as [[]|[]| |sy my ey];
    intros [H | H]; try discriminate; reflexivity.
Qed.

(** X7.  A NaN or an infinity in either band makes the quotient a NaN, and
    the pixel of the index is 0: such samples are not carried over to the
    output, and are not marked with the no-data value either. *)
Theorem non_finite_samples_give_zero red nir r c x y :
  same_shape red nir → pixel red r c = Some x → pixel nir r c = Some y →
  F32.is_finite x = false ∨ F32.is_finite y = false →
  ∃ ndvi, compute_index red nir = inr ndvi ∧ pixel ndvi r c = Some (F32.of_Z 0).
Proof.
  intros Hs Hx Hy Hnf.
  destruct (compute_index_at red nir r c x y Hs Hx Hy) as (ndvi & H & Hv).
  exists ndvi. split; [exact H |]. rewrite Hv. f_equal.
  apply ndvi_pixel_not_finite. rewrite (ratio_of_non_finite x y Hnf). reflexivity.
Qed.

Lemma non_finite_samples_give_zero_witness :
  ∃ ndvi, compute_index [[F32.of_Z 1000; S754_nan]] [[S754_infinity false; F32.of_Z 7]]
          = inr ndvi
    ∧ pixel ndvi 0 1 = Some (F32.of_Z 0).
Proof.
  apply (non_finite_samples_give_zero
           [[F32.of_Z 1000; S754_nan]] [[S754_infinity false; F32.of_Z 7]]
           0 1 S754_nan (F32.of_Z 7)).
  - repeat split; repeat constructor.
  - reflexivity.
  - reflexivity.
  - left. reflexivity.
Defined.

(** ** The ends of the range *)

(** A finite number divided by itself, up to the sign, is one. *)
Lemma div_same_magnitude s1 s2 m e :
  F32.div (S754_finite s1 m e) (S754_finite s2 m e)
  = S754_finite (xorb s1 s2) 8388608 (-23).
Proof.
  unfold F32.div, SFdiv, SFdiv_core_binary.
  rewrite !Z.sub_diag.
  change (Z.min (fexp F32.prec F32.emax 0) 0) with (-24).
  change (0 - -24) with 24. cbv iota.
  rewrite Z.shiftl_mul_pow2 by lia.
  pose proof (Z_div_mod (Z.pos m * 2 ^ 24) (Z.pos m) ltac:(lia)) as Hdiv.
  destruct (Z.div_eucl (Z.pos m * 2 ^ 24) (Z.pos m)) as [q r].
  assert (q = 2 ^ 24 ∧ r = 0) as [-> ->].
  { destruct Hdiv as [Heq Hr]. revert Heq. generalize (2 ^ 24). intros k Heq.
    assert (Ht : Z.pos m * (k - q) = r) by lia.
    assert (k - q = 0) by nia. lia. }
  replace (new_location (Z.pos m) 0) with loc_Exact
    by (unfold new_location; destruct (Z.even (Z.pos m)); reflexivity).
  destruct s1, s2; reflexivity.
Qed.

(** X8.  The ends of the range are reached: where the red sample is a zero
    and the near-infrared one is finite and not zero the index is exactly
    1, and where the near-infrared sample is a zero and the red one is
    finite and not zero it is exactly -1. *)
Theorem index_at_a_zero_sample red nir r c x y :
  same_shape red nir → pixel red r c = Some x → pixel nir r c = Some y →
  (F32.is_zero x = true ∧ F32.is_finite y = true ∧ F32.is_zero y = false)
  ∨ (F32.is_zero y = true ∧ F32.is_finite x = true ∧ F32.is_zero x = false) →
  ∃ ndvi, compute_index red nir = inr ndvi
    ∧ pixel ndvi r c = Some (if F32.is_zero x then F32.of_Z 1 else F32.of_Z (-1)).
Proof.
  intros Hs Hx Hy Hz.
  destruct (compute_index_at red nir r c _ _ Hs Hx Hy) as (ndvi & H & Hv).
  exists ndvi. split; [exact H |]. rewrite Hv. f_equal.
  unfold ndvi_pixel, ratio.
  destruct Hz as [(Hx0 & Hyf & Hy0) | (Hy0 & Hxf & Hx0)].
  - destruct x as [s0| | |]; try discriminate.
    destruct y as [| | |s m e]; try discriminate.
    change (F32.sub (S754_finite s m e) (S754_zero s0)) with (S754_finite s m e).
    change (F32.add (S754_finite s m e) (S754_zero s0)) with (S754_finite s m e).
    rewrite div_same_magnitude. destruct s; reflexivity.
  - destruct y as [s0| | |]; try discriminate.
    destruct x as [| | |s m e]; try discriminate.
    change (F32.sub (S754_zero s0) (S754_finite s m e))
      with (S754_finite (negb s) m e).
    change (F32.add (S754_zero s0) (S754_finite s m e)) with (S754_finite s m e).
    rewrite div_same_magnitude. destruct s; reflexivity.
Qed.

Lemma index_at_a_zero_sample_witness :
  ∃ ndvi, compute_index [[F32.of_Z 0; F32.of_Z 5]] [[F32.of_Z 7; F32.of_Z 0]]
          = inr ndvi
    ∧ pixel ndvi 0 1
      = Some (if F32.is_zero (F32.of_Z 5) then F32.of_Z 1 else F32.of_Z (-1)).
Proof.
  apply (index_at_a_zero_sample [[F32.of_Z 0; F32.of_Z 5]] [[F32.of_Z 7; F32.of_Z 0]]
           0 1 (F32.of_Z 5) (F32.of_Z 0)).
  - repeat split; repeat constructor.
  - reflexivity.
  - reflexivity.
  - right. repeat split; reflexivity.
Defined.

(** * Properties of the generator of sample files *)

Section MockFacts.

Variable draw : nat → nat → nat → Z.
Variables bands height width : nat.

Lemma sample_randint b r c :
  Mock.sample (Mock.randint draw bands height width) b r c
  = if decide ((b < bands)%nat ∧ (r < height)%nat ∧ (c < width)%nat)
    then Some (draw b r c) else None.
Proof.
  unfold Mock.sample, Mock.randint, pixel.
  rewrite list_lookup_fmap.
  destruct (decide (b < bands)%nat) as [Hb | Hb].
  - rewrite (lookup_seq_lt 0 bands b Hb). cbn [fmap option_fmap option_map mbind option_bind].
    rewrite list_lookup_fmap.
    destruct (decide (r < height)%nat) as [Hr | Hr].
    + rewrite (lookup_seq_lt 0 height r Hr).
      cbn [fmap option_fmap option_map mbind option_bind].
      rewrite list_lookup_fmap.
      destruct (decide (c < width)%nat) as [Hc | Hc].
      * rewrite (lookup_seq_lt 0 width c Hc). rewrite decide_True by auto. reflexivity.
      * rewrite lookup_seq_ge by lia. rewrite decide_False by tauto. reflexivity.
    + rewrite lookup_seq_ge by lia. rewrite decide_False by tauto. reflexivity.
  - rewrite lookup_seq_ge by lia. rewrite decide_False by tauto. reflexivity.
Qed.

Lemma length_randint : length (Mock.randint draw bands height width) = bands.
Proof. unfold Mock.randint. rewrite length_fmap, length_seq. reflexivity. Qed.

End MockFacts.

Lemma pixel_update_masked f mask band r c :
  pixel (Mock.update_masked f mask band) r c
  = (fun v => if mask r c then f v else v) <$> pixel band r c.
Proof.
  unfold pixel, Mock.update_masked. rewrite list_lookup_imap.
  destruct (band !! r) as [row|]; [| reflexivity]. cbn.
  apply list_lookup_imap.
Qed.

Lemma set_band_masked_inr k f mask data :
  (k < length data)%nat →
  ∃ data', Mock.set_band_masked k f mask data = inr data'
    ∧ length data' = length data
    ∧ ∀ b r c, Mock.sample data' b r c
               = if decide (b = k)
                 then (fun v => if mask r c then f v else v) <$> Mock.sample data b r c
                 else Mock.sample data b r c.
Proof.
  intros Hk. unfold Mock.set_band_masked.
  destruct (lookup_lt_is_Some_2 data k Hk) as [band Hband]. rewrite Hband.
  eexists. split; [reflexivity |]. split; [apply length_insert |].
  intros b r c. unfold Mock.sample.
  destruct (decide (b = k)) as [-> | Hne].
  - rewrite list_lookup_insert_eq by exact Hk. rewrite Hband. cbn.
    apply pixel_update_masked.
  - rewrite list_lookup_insert_ne by congruence. reflexivity.
Qed.

Lemma set_band_masked_inl k f mask data :
  (length data <= k)%nat →
  Mock.set_band_masked k f mask data
  = inl (OtherException "IndexError"
           ("index " +:+ pretty k +:+ " is out of bounds for axis 0 with size "
              +:+ pretty (length data))).
Proof.
  intros Hk. unfold Mock.set_band_masked.
  rewrite (lookup_ge_None_2 data k Hk). reflexivity.
Qed.

(** The value the generator stores at a position, from the value drawn
    there. *)
Lemma mock_data_samples draw bands height width :
  (2 <= bands)%nat →
  ∃ data, Mock.mock_data draw bands height width = inr data
    ∧ length data = bands
    ∧ ∀ b r c, Mock.sample data b r c
        = if decide ((b < bands)%nat ∧ (r < height)%nat ∧ (c < width)%nat)
          then Some (if Mock.in_circle height width r c
                     then match b with
                          | 0%nat => Mock.uint16 (draw b r c / 2)
                          | 1%nat => Mock.uint16 (draw b r c + 2500)
                          | _ => draw b r c
                          end
                     else draw b r c)
          else None.
Proof.
  intros Hb. unfold Mock.mock_data.
  destruct (set_band_masked_inr 1 (fun v => Mock.uint16 (v + 2500))
              (Mock.in_circle height width) (Mock.randint draw bands height width))
    as (d1 & -> & Hlen1 & Hs1); [rewrite length_randint; lia |].
  destruct (set_band_masked_inr 0 (fun v => Mock.uint16 (v / 2))
              (Mock.in_circle height width) d1)
    as (d0 & -> & Hlen0 & Hs0); [rewrite Hlen1, length_randint; lia |].
  exists d0. split; [reflexivity |].
  split; [rewrite Hlen0, Hlen1; apply length_randint |].
  intros b r c. rewrite Hs0, !Hs1, sample_randint.
  destruct (decide ((b < bands)%nat ∧ (r < height)%nat ∧ (c < width)%nat)) as [Hin | Hout].
  - destruct b as [|[|b]]; cbn; destruct (Mock.in_circle height width r c); reflexivity.
  - destruct b as [|[|b]]; reflexivity.
Qed.

(** ** What the generator raises and what it prints *)

(** X9.  With 0 or 1 bands the generator fails before it touches the
    disk: the [IndexError] of line 34 is raised outside the [try], reaches
    the caller, and nothing is created or printed. *)
Theorem mock_with_fewer_than_two_bands_raises lib draw filepath bands height width :
  (bands < 2)%nat →
  Mock.create_mock_geotiff lib draw filepath bands height width
  = (inl (OtherException "IndexError"
            ("index 1 is out of bounds for axis 0 with size " +:+ pretty bands)),
     []).
Proof.
  intros Hb. unfold Mock.create_mock_geotiff, Mock.mock_data.
  rewrite set_band_masked_inl by (rewrite length_randint; lia).
  rewrite length_randint. reflexivity.
Qed.


(** ** What the generator writes *)

(** X11.  Every sample of the generated array is the value drawn at its
    position, except in the circle, where band 1 holds half the drawn value
    and band 2 the drawn value plus 2500.  For draws in [100, 4000) the
    16-bit arithmetic never wraps around and every sample lies in
    [50, 6500). *)
Theorem mock_samples draw bands height width b r c :
  (2 <= bands)%nat → 100 <= draw b r c < 4000 →
  (b < bands)%nat → (r < height)%nat → (c < width)%nat →
  ∃ data v,
    Mock.mock_data draw bands height width = inr data
    ∧ Mock.sample data b r c = Some v
    ∧ v = (if Mock.in_circle height width r c
           then match b with
                | 0%nat => draw b r c / 2
                | 1%nat => draw b r c + 2500
                | _ => draw b r c
                end
           else draw b r c)
    ∧ 50 <= v < 6500.
Proof.
  intros Hb Hdraw Hbb Hr Hc.
  destruct (mock_data_samples draw bands height width Hb) as (data & Hd & _ & Hs).
  exists data. eexists. split; [exact Hd |].
  rewrite Hs, decide_True by auto. split; [reflexivity |].
  assert (Hhalf : 50 <= draw b r c / 2 < 2000).
  { split; [apply Z.div_le_lower_bound; lia | apply Z.div_lt_upper_bound; lia]. }
  unfold Mock.uint16.
  destruct (Mock.in_circle height width r c); [| split; [reflexivity | lia]].
  destruct b as [|[|b]].
  - rewrite Z.mod_small by lia. split; [reflexivity | lia].
  - rewrite Z.mod_small by lia. split; [reflexivity | lia].
  - split; [reflexivity | lia].
Qed.

Lemma mock_with_fewer_than_two_bands_raises_witness :
  Mock.create_mock_geotiff sample_writer sample_draw "sample_multiband.tif" 1 4 4
  = (inl (OtherException "IndexError"
            ("index 1 is out of bounds for axis 0 with size " +:+ pretty 1%nat)),
     []).
Proof.
  apply (mock_with_fewer_than_two_bands_raises sample_writer sample_draw
           "sample_multiband.tif" 1 4 4).
  lia.
Defined.


(** The two exceptions of line 22, on a machine where an array of more
    than a million samples does not fit. *)
Example mock_negative_height :
  Mock.create_mock_geotiff_call sample_alloc sample_writer sample_draw
    "sample_multiband.tif" 2 (-4) 4
  = (inl (ValueError "negative dimensions are not allowed"), []).
Proof. reflexivity. Qed.

Example mock_too_large :
  Mock.create_mock_geotiff_call sample_alloc sample_writer sample_draw
    "sample_multiband.tif" 2 1000000 1000000
  = (inl (OtherException "MemoryError" "Unable to allocate the array"), []).
Proof. reflexivity. Qed.

Lemma mock_samples_witness :
  ∃ data v,
    Mock.mock_data sample_draw 3 4 4 = inr data
    ∧ Mock.sample data 1 2 2 = Some v
    ∧ v = (if Mock.in_circle 4 4 2 2
           then match 1%nat with
                | 0%nat => sample_draw 1 2 2 / 2
                | 1%nat => sample_draw 1 2 2 + 2500
                | _ => sample_draw 1 2 2
                end
           else sample_draw 1 2 2)
    ∧ 50 <= v < 6500.
Proof.
  apply (mock_samples sample_draw 3 4 4 1 2 2); unfold sample_draw; lia.
Defined.

(** ** The generator and the calculator together *)

Lemma mock_meta_driver bands height width :
  Mock.meta bands height width !! "driver" = Some (MStr "GTiff").
Proof. reflexivity. Qed.

(** X12.  For a file made by the generator the calculator changes the
    metadata in three fields only: the [driver] is ["GTiff"] already, so
    every key other than [count], [dtype] and [nodata] has in the output
    metadata the value the generator gave it. *)
Theorem mock_meta_changes_in_three_keys bands height width key :
  key ≠ "count" → key ≠ "dtype" → key ≠ "nodata" →
  derive_out_meta (Mock.meta bands height width) !! key
  = Mock.meta bands height width !! key.
Proof.
  intros H1 H2 H3. unfold derive_out_meta.
  rewrite !lookup_insert_ne by congruence.
  destruct (decide (key = "driver")) as [-> | Hne].
  - rewrite lookup_insert_eq. symmetry. apply mock_meta_driver.
  - rewrite lookup_insert_ne by congruence. reflexivity.
Qed.

Lemma mock_meta_changes_in_three_keys_witness :
  derive_out_meta (Mock.meta 5 256 256) !! "driver"
  = Mock.meta 5 256 256 !! "driver".
Proof.
  apply (mock_meta_changes_in_three_keys 5 256 256 "driver"); discriminate.
Defined.

Lemma same_shape_of_dims {A B} (a : list (list A)) (b : list (list B)) h w :
  length a = h → Forall (fun row => length row = w) a →
  length b = h → Forall (fun row => length row = w) b →
  same_shape a b.
Proof.
  intros Ha Hwa Hb Hwb. unfold same_shape, rectangular, shape.
  destruct a as [|ra a], b as [|rb b]; cbn in *; try lia.
  - repeat split; constructor.
  - inversion Hwa; inversion Hwb; subst.
    split; [exact Hwa |]. split; [rewrite H5; exact Hwb |].
    f_equal; congruence.
Qed.

Lemma pixel_map {A B} (f : A → B) (a : list (list A)) r c :
  pixel (map (map f) a) r c = f <$> pixel a r c.
Proof.
  unfold pixel. change (map (map f) a) with (map f <$> a).
  rewrite list_lookup_fmap. destruct (a !! r) as [row|]; [| reflexivity]. cbn.
  apply (list_lookup_fmap f).
Qed.

Lemma update_masked_dims f mask band h w :
  length band = h → Forall (fun row => length row = w) band →
  length (Mock.update_masked f mask band) = h
  ∧ Forall (fun row => length row = w) (Mock.update_masked f mask band).
Proof.
  intros Hh Hw. unfold Mock.update_masked. split; [rewrite length_imap; exact Hh |].
  apply Forall_lookup. intros r row Hrow.
  apply list_lookup_imap_Some in Hrow as (row0 & Hrow0 & ->).
  rewrite length_imap. exact (proj1 (Forall_lookup _ _) Hw r row0 Hrow0).
Qed.

Lemma set_band_masked_dims k f mask data data' h w :
  Mock.set_band_masked k f mask data = inr data' →
  Forall (fun band => length band = h ∧ Forall (fun row => length row = w) band) data →
  Forall (fun band => length band = h ∧ Forall (fun row => length row = w) band) data'.
Proof.
  unfold Mock.set_band_masked. destruct (data !! k) as [band|] eqn:Hband; [| discriminate].
  intros [= <-] Hall. apply Forall_insert; [exact Hall |].
  destruct (proj1 (Forall_lookup _ _) Hall k band Hband) as [Hh Hw].
  apply update_masked_dims; assumption.
Qed.

Lemma randint_dims draw bands height width :
  Forall (fun band => length band = height
                      ∧ Forall (fun row => length row = width) band)
    (Mock.randint draw bands height width).
Proof.
  unfold Mock.randint. apply Forall_fmap, Forall_forall. intros b _. cbn. split.
  - rewrite length_fmap, length_seq. reflexivity.
  - apply Forall_fmap, Forall_forall. intros r _. cbn.
    rewrite length_fmap, length_seq. reflexivity.
Qed.

Lemma mock_data_dims draw bands height width data :
  Mock.mock_data draw bands height width = inr data →
  Forall (fun band => length band = height
                      ∧ Forall (fun row => length row = width) band) data.
Proof.
  unfold Mock.mock_data.
  destruct (Mock.set_band_masked 1 _ _ _) as [e|d1] eqn:H1; [discriminate |].
  intros H0. eapply set_band_masked_dims; [exact H0 |].
  eapply set_band_masked_dims; [exact H1 |]. apply randint_dims.
Qed.

(** X13.  The two programs fit together.  Whatever is drawn in
    [100, 4000), if a dataset reads back as bands 1 and 2 the first two
    bands that the generator wrote, then the calculator, called with red
    band 1 and near-infrared band 2 as the generator's closing line says,
    accepts the band numbers, computes an index and goes on to write it,
    and the index is above zero at every pixel of the circle. *)
Theorem index_of_a_generated_file_is_positive_in_the_circle
    lib input_path output_path src tr draw bands height width data band1 band2 :
  (∀ b r c, (b < bands)%nat → (r < height)%nat → (c < width)%nat →
             100 <= draw b r c < 4000) →
  Mock.mock_data draw bands height width = inr data →
  data !! 0%nat = Some band1 → data !! 1%nat = Some band2 →
  2 <= ds_count src →
  ds_read src 1 = inr (IntArray band1) → ds_read src 2 = inr (IntArray band2) →
  ∃ ndvi,
    process lib input_path output_path src 1 2 tr
    = write_output lib output_path src ndvi
        (tr ++ [EvRead input_path 1; EvRead input_path 2])
    ∧ ∀ r c, (r < height)%nat → (c < width)%nat →
        Mock.in_circle height width r c = true →
        ∃ v, pixel ndvi r c = Some v ∧ F32.ltb (F32.of_Z 0) v = true.
Proof.
  intros Hdraw Hdata Hb1 Hb2 Hcount Hr1 Hr2.
  assert (Hbands : (2 <= bands)%nat).
  { destruct (le_lt_dec 2 bands) as [? | Hlt]; [assumption | exfalso].
    unfold Mock.mock_data in Hdata.
    rewrite set_band_masked_inl in Hdata by (rewrite length_randint; lia).
    discriminate. }
  destruct (mock_data_samples draw bands height width Hbands)
    as (data' & Hd' & _ & Hs).
  assert (data' = data) by congruence. subst data'.
  pose proof (mock_data_dims _ _ _ _ _ Hdata) as Hdims.
  destruct (proj1 (Forall_lookup _ _) Hdims _ _ Hb1) as [Hh1 Hw1].
  destruct (proj1 (Forall_lookup _ _) Hdims _ _ Hb2) as [Hh2 Hw2].
  assert (Hshape : same_shape (astype_float32 (IntArray band1))
                              (astype_float32 (IntArray band2))).
  { cbn [astype_float32].
    apply (same_shape_of_dims _ _ height width).
    - rewrite length_map. exact Hh1.
    - apply Forall_fmap. eapply Forall_impl; [exact Hw1 |].
      intros row Hrow. cbn. rewrite length_map. exact Hrow.
    - rewrite length_map. exact Hh2.
    - apply Forall_fmap. eapply Forall_impl; [exact Hw2 |].
      intros row Hrow. cbn. rewrite length_map. exact Hrow. }
  destruct (compute_index_defined _ _ Hshape) as (ndvi & Hc & _ & Hp).
  assert (Hok : bands_exist (ds_count src) 1 2 = true).
  { unfold bands_exist. rewrite !andb_true_iff, !Z.ltb_lt, !Z.leb_le. lia. }
  exists ndvi. split.
  { rewrite (process_valid _ _ _ _ _ _ _ _ _ Hok Hr1 Hr2), Hc. reflexivity. }
  intros r c Hr Hcw Hin.
  pose proof (Hs 0%nat r c) as Hx. pose proof (Hs 1%nat r c) as Hy.
  rewrite decide_True in Hx by (repeat split; lia).
  rewrite decide_True in Hy by (repeat split; lia).
  rewrite Hin in Hx, Hy. unfold Mock.sample in Hx, Hy.
  rewrite Hb1 in Hx. rewrite Hb2 in Hy. cbn [mbind option_bind] in Hx, Hy.
  pose proof (Hdraw 0%nat r c ltac:(lia) Hr Hcw) as Hd0.
  pose proof (Hdraw 1%nat r c ltac:(lia) Hr Hcw) as Hd1.
  assert (Hhalf : 50 <= draw 0%nat r c / 2 < 2000).
  { split; [apply Z.div_le_lower_bound; lia | apply Z.div_lt_upper_bound; lia]. }
  unfold Mock.uint16 in Hx, Hy.
  rewrite Z.mod_small in Hx by lia. rewrite Z.mod_small in Hy by lia.
  eexists. split.
  - rewrite Hp. cbn [astype_float32]. rewrite !pixel_map, Hx, Hy. reflexivity.
  - apply ndvi_pixel_positive; [lia |].
    change (2 ^ 24) with 16777216. lia.
Qed.

Lemma index_of_a_generated_file_is_positive_in_the_circle_witness :
  ∃ ndvi,
    process sample_lib "sample_multiband.tif" "ndvi_output.tif"
      (dataset_of (Mock.meta 3 4 4) sample_mock_data) 1 2 []
    = write_output sample_lib "ndvi_output.tif"
        (dataset_of (Mock.meta 3 4 4) sample_mock_data) ndvi
        ([] ++ [EvRead "sample_multiband.tif" 1; EvRead "sample_multiband.tif" 2])
    ∧ ∀ r c, (r < 4)%nat → (c < 4)%nat →
        Mock.in_circle 4 4 r c = true →
        ∃ v, pixel ndvi r c = Some v ∧ F32.ltb (F32.of_Z 0) v = true.
Proof.
  apply (index_of_a_generated_file_is_positive_in_the_circle
           sample_lib "sample_multiband.tif" "ndvi_output.tif"
           (dataset_of (Mock.meta 3 4 4) sample_mock_data) []
           sample_draw 3 4 4 sample_mock_data
           (sample_mock_band 0) (sample_mock_band 1)).
  - intros b r c Hb Hr Hc. unfold sample_draw. lia.
  - reflexivity.
  - reflexivity.
  - reflexivity.
  - cbn. lia.
  - reflexivity.
  - reflexivity.
Defined.

(** * Further properties of the conversion, the shape and the metadata *)

(** X14.  The conversion of line 30 keeps unsigned integer samples below
    [2 ^ 24] apart: two of them that become the same binary32 value are the
    same integer. *)
Theorem conversion_keeps_small_integers_apart z1 z2 :
  0 <= z1 < 2 ^ 24 → 0 <= z2 < 2 ^ 24 →
  F32.of_Z z1 = F32.of_Z z2 → z1 = z2.
Proof.
  intros H1 H2 Heq.
  destruct (Z.eq_dec z1 0) as [-> | Hn1]; destruct (Z.eq_dec z2 0) as [-> | Hn2];
    try reflexivity.
  - destruct (of_Z_exact z2 ltac:(lia)) as (m & e & Hf & _).
    rewrite Hf in Heq. discriminate.
  - destruct (of_Z_exact z1 ltac:(lia)) as (m & e & Hf & _).
    rewrite Hf in Heq. discriminate.
  - destruct (of_Z_exact z1 ltac:(lia)) as (m1 & e1 & Hf1 & _ & He1 & Hv1).
    destruct (of_Z_exact z2 ltac:(lia)) as (m2 & e2 & Hf2 & _ & He2 & Hv2).
    rewrite Hf1, Hf2 in Heq. injection Heq as -> ->.
    rewrite Hv1 in Hv2.
    apply Z.mul_cancel_r in Hv2; [exact Hv2 |].
    apply Z.pow_nonzero; lia.
Qed.

Lemma conversion_keeps_small_integers_apart_witness : 1000 + 2000 = 3000.
Proof.
  apply (conversion_keeps_small_integers_apart (1000 + 2000) 3000).
  - cbn; lia.
  - cbn; lia.
  - reflexivity.
Defined.

(** Above [2 ^ 24] the conversion rounds: two neighbours become one value. *)
Example conversion_rounds_above_24_bits :
  F32.of_Z 16777217 = F32.of_Z 16777216.
Proof. reflexivity. Qed.

(** X15.  For unsigned 16-bit samples the index is known at every pixel: it
    is 0 where both samples are 0, and the clamped quotient everywhere
    else, the quotient being finite there. *)
Theorem index_of_unsigned_16_bit_samples red nir r c x y :
  same_shape red nir →
  pixel red r c = Some (F32.of_Z x) → pixel nir r c = Some (F32.of_Z y) →
  0 <= x < 2 ^ 16 → 0 <= y < 2 ^ 16 →
  ∃ ndvi, compute_index red nir = inr ndvi
    ∧ pixel ndvi r c
      = Some (if decide (x = 0 ∧ y = 0) then F32.of_Z 0
              else clip (F32.of_Z (-1)) (F32.of_Z 1)
                     (ratio (F32.of_Z x) (F32.of_Z y)))
    ∧ (¬ (x = 0 ∧ y = 0) →
       F32.is_finite (ratio (F32.of_Z x) (F32.of_Z y)) = true).
Proof.
  intros Hs Hx Hy Hxr Hyr.
  destruct (compute_index_at red nir r c _ _ Hs Hx Hy) as (ndvi & H & Hv).
  exists ndvi. split; [exact H |].
  assert (Hfin : ¬ (x = 0 ∧ y = 0) →
                 F32.is_finite (ratio (F32.of_Z x) (F32.of_Z y)) = true).
  { intros Hne. apply ratio_of_integers_finite; try lia.
    rewrite eqb_zero_is_zero.
    assert (Hpow : 2 ^ 16 < 2 ^ 24) by reflexivity.
    pose proof (add_of_Z_positive x y ltac:(lia) ltac:(lia) ltac:(lia)) as Hn.
    destruct (F32.add (F32.of_Z y) (F32.of_Z x)); cbn in Hn |- *;
      try contradiction; reflexivity. }
  split; [| exact Hfin].
  rewrite Hv. f_equal. destruct (decide (x = 0 ∧ y = 0)) as [[-> ->] | Hne].
  - reflexivity.
  - apply ndvi_pixel_finite, Hfin, Hne.
Qed.

Lemma index_of_unsigned_16_bit_samples_witness :
  ∃ ndvi, compute_index sample_red sample_nir = inr ndvi
    ∧ pixel ndvi 0 0
      = Some (if decide (1000 = 0 ∧ 3000 = 0) then F32.of_Z 0
              else clip (F32.of_Z (-1)) (F32.of_Z 1)
                     (ratio (F32.of_Z 1000) (F32.of_Z 3000)))
    ∧ (¬ (1000 = 0 ∧ 3000 = 0) →
       F32.is_finite (ratio (F32.of_Z 1000) (F32.of_Z 3000)) = true).
Proof.
  apply (index_of_unsigned_16_bit_samples sample_red sample_nir 0 0 1000 3000).
  - exact same_shape_samples.
  - reflexivity.
  - reflexivity.
  - cbn; lia.
  - cbn; lia.
Defined.

(** X16.  The index of two bands of one shape has that shape: it has a
    value exactly at the positions of the bands, and its rows have one
    length. *)
Theorem index_has_the_shape_of_the_bands red nir :
  same_shape red nir →
  ∃ ndvi, compute_index red nir = inr ndvi
    ∧ shape ndvi = shape red ∧ rectangular ndvi
    ∧ ∀ r c, is_Some (pixel ndvi r c) ↔ is_Some (pixel red r c).
Proof.
  intros Hs.
  destruct (compute_index_defined red nir Hs) as (ndvi & H & (Hrect & _ & Hshape) & Hp).
  exists ndvi. repeat split; try assumption.
  - rewrite Hp. intros [v Hv].
    destruct (pixel nir r c); [| discriminate]. cbn in Hv.
    destruct (pixel red r c); [eauto | discriminate].
  - intros [x Hx]. rewrite Hp, Hx.
    assert (Hy : is_Some (pixel nir r c)).
    { destruct Hs as (Hr & Hn & Hsh). unfold pixel in *.
      destruct (red !! r) as [rowr|] eqn:Hrow; [| discriminate]. cbn in Hx.
      assert (Hlen : (r < length nir)%nat).
      { apply lookup_lt_Some in Hrow. injection Hsh as Hl _. lia. }
      destruct (lookup_lt_is_Some_2 nir r Hlen) as [rown Hrown].
      rewrite Hrown. cbn. apply lookup_lt_is_Some.
      apply lookup_lt_Some in Hx.
      unfold rectangular in Hr, Hn.
      rewrite (proj1 (Forall_lookup _ _) Hn r rown Hrown), <- Hsh.
      rewrite <- (proj1 (Forall_lookup _ _) Hr r rowr Hrow). exact Hx. }
    destruct Hy as [y ->]. cbn. eauto.
Qed.

Lemma index_has_the_shape_of_the_bands_witness :
  ∃ ndvi, compute_index sample_red sample_nir = inr ndvi
    ∧ shape ndvi = shape sample_red ∧ rectangular ndvi
    ∧ ∀ r c, is_Some (pixel ndvi r c) ↔ is_Some (pixel sample_red r c).
Proof.
  apply (index_has_the_shape_of_the_bands sample_red sample_nir), same_shape_samples.
Defined.

(** X17.  Deriving the output metadata twice is deriving it once, and the
    derived dictionary has the keys of the source and the four keys that
    line 53 sets. *)
Theorem derive_out_meta_is_idempotent (meta : gmap string meta_value) :
  derive_out_meta (derive_out_meta meta) = derive_out_meta meta
  ∧ dom (derive_out_meta meta)
    = dom meta ∪ {[ "driver"; "count"; "dtype"; "nodata" ]}.
Proof.
  split.
  - apply map_eq. intros key. unfold derive_out_meta.
    destruct (decide (key = "nodata")) as [-> | ?]; [by simplify_map_eq |].
    destruct (decide (key = "dtype")) as [-> | ?]; [by simplify_map_eq |].
    destruct (decide (key = "count")) as [-> | ?]; [by simplify_map_eq |].
    destruct (decide (key = "driver")) as [-> | ?]; by simplify_map_eq.
  - unfold derive_out_meta. rewrite !dom_insert_L.
    apply set_eq. intros key.
    rewrite !elem_of_union, !elem_of_singleton. tauto.
Qed.
